(** * vtrim: fingerprint matching and cut-point detection

    A shallow embedding of [vtrim.py].  Python integers are [Z], the
    fingerprint set is a [gset Z], text is [string].  The external
    collaborators (media files and directories, the video decoder with its
    perceptual hash, the [ffmpeg] process, the interrupt signal) are the
    fields of a [World], fixed during a run; the text files the program
    reads and writes, the polls of the cancellation flag and a log of what
    the program does to the outside make the [State], threaded through a
    state and exception monad.  The interrupt is the number of the first
    poll that finds the flag set: the flag is only ever read by polling. *)

From Stdlib Require Import ZArith QArith Qreduction String Ascii List Sorted.
From Stdlib Require Import Decimal DecimalString DecimalZ DecimalPos.
From Stdlib Require Import Floats.PrimFloat Floats.SpecFloat Floats.FloatOps.
From stdpp Require Import gmap strings list.

Local Open Scope string_scope.
Local Open Scope Z_scope.

(** ** Python builtins used by the program *)

Module Py.

(** [bin(p)] for a positive [p], most significant digit first, in front
    of [acc]. *)
Fixpoint bin_pos (p : positive) (acc : string) : string :=
  match p with
  | xH => String "1" acc
  | xO q => bin_pos q (String "0" acc)
  | xI q => bin_pos q (String "1" acc)
  end.

(** [bin(z)]: ["0b..."], with a leading minus sign on a negative number
    (Python prints the magnitude, not a two's complement). *)
Definition bin (z : Z) : string :=
  match z with
  | Z0 => "0b0"
  | Zpos p => "0b" ++ bin_pos p ""
  | Zneg p => "-0b" ++ bin_pos p ""
  end.

(** [s.count(c)] for a one-character needle. *)
Fixpoint count (c : ascii) (s : string) : Z :=
  match s with
  | EmptyString => 0
  | String a s' => (if Ascii.eqb a c then 1 else 0) + count c s'
  end.

(** [math.ceil] on a binary64 float.  A finite float is [m * 2^e]; Python
    raises on an infinity or a NaN, which is 0 here. *)
Definition math_ceil (x : float) : Z :=
  match Prim2SF x with
  | S754_finite s m e =>
      let v := if s then Z.neg m else Z.pos m in
      if 0 <=? e then v * 2 ^ e else - ((- v) / 2 ^ (- e))
  | _ => 0
  end.

(** [str(z)]: decimal digits, a minus sign in front of a negative one.
    (CPython refuses integers of more than 4300 digits by default; a
    fingerprint is an 8-byte hash and has at most 20.) *)
Definition str (z : Z) : string := NilEmpty.string_of_int (Z.to_int z).

(** White space as [int()] and [str.strip()] see it, among the characters
    below 128: tab to carriage return, the separators 28 to 31, space. *)
Definition isspace (a : ascii) : bool :=
  let n := N_of_ascii a in
  ((9 <=? n) && (n <=? 13) || (28 <=? n) && (n <=? 32))%N.

Fixpoint lstrip (s : string) : string :=
  match s with
  | EmptyString => EmptyString
  | String a s' => if isspace a then lstrip s' else s
  end.

Fixpoint rstrip (s : string) : string :=
  match s with
  | EmptyString => EmptyString
  | String a s' =>
      match rstrip s' with
      | EmptyString => if isspace a then EmptyString else String a EmptyString
      | r => String a r
      end
  end.

Definition strip (s : string) : string := lstrip (rstrip s).

(** The digits of an [int()] literal in base ten: at least one digit, a
    single underscore allowed between two digits.  [after_digit] tells
    whether the previous character was a digit. *)
Fixpoint digits (after_digit : bool) (s : string) : option Decimal.uint :=
  match s with
  | EmptyString => if after_digit then Some Decimal.Nil else None
  | String a s' =>
      if Ascii.eqb a "_" then
        if after_digit then
          match s' with
          | EmptyString => None
          | _ => digits false s'
          end
        else None
      else uint_of_char a (digits true s')
  end.

(** [int(s)]: surrounding white space is dropped, then an optional sign and
    the digits.  [None] is [ValueError]. *)
Definition int (s : string) : option Z :=
  match strip s with
  | String "-" r => option_map (fun d => Z.of_int (Decimal.Neg d)) (digits false r)
  | String "+" r => option_map (fun d => Z.of_int (Decimal.Pos d)) (digits false r)
  | r => option_map (fun d => Z.of_int (Decimal.Pos d)) (digits false r)
  end.

(** Reading in text mode translates ["\r\n"] and a lone ["\r"] to ["\n"]
    (universal newlines). *)
Fixpoint universal_newlines (s : string) : string :=
  match s with
  | EmptyString => EmptyString
  | String a s' =>
      if Ascii.eqb a "013" then
        String "010"
          match s' with
          | String b s'' =>
              if Ascii.eqb b "010" then universal_newlines s''
              else universal_newlines s'
          | EmptyString => EmptyString
          end
      else String a (universal_newlines s')
  end.

(** [f.readlines()]: the lines, each with its ["\n"], the last one without
    when the text does not end in a newline. *)
Fixpoint readlines (s : string) : list string :=
  match s with
  | EmptyString => []
  | String a s' =>
      if Ascii.eqb a "010" then String a EmptyString :: readlines s'
      else match readlines s' with
           | [] => [String a EmptyString]
           | l :: ls => String a l :: ls
           end
  end.

(** [s.lower()] on letters A to Z; paths and extensions are text over the
    characters below 128. *)
Definition lower_char (a : ascii) : ascii :=
  let n := N_of_ascii a in
  if ((65 <=? n) && (n <=? 90))%N then ascii_of_N (n + 32) else a.

Fixpoint lower (s : string) : string :=
  match s with
  | EmptyString => EmptyString
  | String a s' => String (lower_char a) (lower s')
  end.

(** [s.endswith(suffix)]. *)
Definition endswith (s suffix : string) : bool :=
  let n := String.length s in
  let m := String.length suffix in
  (m <=? n)%nat && String.eqb (substring (n - m) m s) suffix.

(** [s.startswith(prefix)]. *)
Definition startswith (s pre : string) : bool := String.prefix pre s.

(** [re.split(r' |,|\.', s)]: cut at every space, comma and dot; empty
    pieces are kept. *)
Definition is_ext_sep (a : ascii) : bool :=
  Ascii.eqb a " " || Ascii.eqb a "," || Ascii.eqb a ".".

Fixpoint re_split (s : string) : list string :=
  match s with
  | EmptyString => [EmptyString]
  | String a s' =>
      if is_ext_sep a then EmptyString :: re_split s'
      else match re_split s' with
           | [] => [String a EmptyString]
           | x :: xs => String a x :: xs
           end
  end.

(** [os.path.basename(p)] on POSIX: what follows the last slash. *)
Fixpoint basename (p : string) : string :=
  match p with
  | EmptyString => EmptyString
  | String a p' =>
      if existsb (Ascii.eqb "/") (list_ascii_of_string p') then basename p'
      else if Ascii.eqb a "/" then p' else p
  end.

(** [os.path.join(a, b)] on POSIX. *)
Definition join (a b : string) : string :=
  if startswith b "/" then b
  else if String.eqb a "" || endswith a "/" then a ++ b
  else a ++ "/" ++ b.

(** [a / b] for [b = 1000]: the exact quotient in lowest terms (Python
    rounds it to the nearest binary64). *)
Definition div1000 (a : Z) : Q := Qred (a # 1000).

End Py.

(** ** Configuration *)

Inductive Operations := CutVideoFile | BuildHashDB | AppendToHashDB | Error.

(** The fields of [Configs].  [end_] is the field [end]; the private
    [__max_hamming_distance] is [max_hamming_distance].  The private flag
    [__closed] is written by the signal handler only and lives in the
    [World] (when the signal arrives) and the [State] (the polls made). *)
Record Configs := mkConfigs {
  max_header_length_ms : Z;
  op : Operations;
  db : string;
  sources : list string;
  dest : string;
  move_file_after_cut : bool;
  log_file_name : option string;
  exts : option (gset string);
  end_ : Z;
  max_hamming_distance : Z
}.

#[warnings="-inexact-float"]
Definition similarity : float := 0.8%float.

(** [Configs.__init__]. *)
Definition Configs_init : Configs :=
  {| max_header_length_ms := 5 * 60 * 1000;
     op := Error;
     db := "clips.db";
     sources := ["in"];
     dest := "out";
     move_file_after_cut := false;
     log_file_name := None;
     exts := None;
     end_ := -1;
     max_hamming_distance :=
       Py.math_ceil (PrimFloat.mul (PrimFloat.mul 8 4) (PrimFloat.sub 1 similarity)) |}.

(** ** Similarity matching *)

(** [hamming(a, b) = bin(a ^ b).count('1')]. *)
Definition hamming (a b : Z) : Z := Py.count "1" (Py.bin (Z.lxor a b)).

(** The [for h in hashes] loop of [isSimilar], with its early return.  The
    second component counts the calls of [hamming]. *)
Fixpoint isSimilar_loop (thr hash : Z) (hs : list Z) : bool * nat :=
  match hs with
  | [] => (false, 0%nat)
  | h :: hs' =>
      let diff := hamming h hash in
      if diff <? thr then (true, 1%nat)
      else let '(r, n) := isSimilar_loop thr hash hs' in (r, S n)
  end.

(** [Configs.isSimilar] together with the number of distance computations
    it made. *)
Definition isSimilar_traced (cfg : Configs) (hashes : gset Z) (hash : Z) : bool * nat :=
  if decide (hash ∈ hashes) then (true, 0%nat)
  else isSimilar_loop (max_hamming_distance cfg) hash (elements hashes).

(** [Configs.isSimilar]. *)
Definition isSimilar (cfg : Configs) (hashes : gset Z) (hash : Z) : bool :=
  fst (isSimilar_traced cfg hashes hash).

(** [cfg] with another threshold. *)
Definition with_threshold (t : Z) (cfg : Configs) : Configs :=
  {| max_header_length_ms := max_header_length_ms cfg;
     op := op cfg; db := db cfg; sources := sources cfg; dest := dest cfg;
     move_file_after_cut := move_file_after_cut cfg;
     log_file_name := log_file_name cfg; exts := exts cfg; end_ := end_ cfg;
     max_hamming_distance := t |}.

(** ** The outside world *)

(** A decoded frame: the position [video.get(CAP_PROP_POS_MSEC)] reports
    after reading it, floored, and the value of [pHash] on its image. *)
Record Frame := mkFrame { frame_ms : Z; frame_hash : Z }.

(** What [cv2.VideoCapture(src)] gives: whether it opened, the frames
    [read()] returns with [ok = True], in order, and the position reported
    after the read that fails at the end of the stream. *)
Record Video := mkVideo { isOpened : bool; frames : list Frame; eof_ms : Z }.

Inductive Exn := ValueError | OSError | CalledError.

(** An outcome: a value or a raised exception. *)
Inductive res (A : Type) := Ok (a : A) | Raise (e : Exn).
Arguments Ok {A} a.
Arguments Raise {A} e.

Record World := mkWorld {
  (** the media files, by path *)
  media : gmap string Video;
  (** [os.walk(path)]: (directory, sub-directories, file names) *)
  walk : string → list (string * list string * list string);
  abspath : string → string;
  (** [subprocess.run] of ffmpeg on source, offset in seconds and
      destination: its return code, or the exception it raises *)
  ffmpeg : string → Q → string → res Z;
  (** [shutil.move(dest, src)] *)
  shutil_move : string → string → res unit;
  (** the first poll of the cancellation flag that finds it set, counted
      from the start of the run; [None] when no interrupt arrives *)
  sigint_at : option nat;
  path_exists : string → bool;
  isdir : string → bool
}.

(** What the program does that can be seen from outside: the info and
    error lines of the cut path and the two external actions.  The progress
    lines of the database loader and builder are left out. *)
Inductive Event :=
  | LogDbNotFound (db : string)
  | LogNotAFile (src : string)
  | LogAnalyzing (src : string)
  | LogPass
  | LogCutAt (sec : Q)
  | RunFfmpeg (src : string) (sec : Q) (dest : string)
  | LogFailed
  | LogMove (dest src : string)
  | Move (dest src : string)
  | LogSuccess
  | LogUnexpected (e : Exn)
  | LogSummary (total success skip : Z)
  | LogBadTime.

(** The mutable part: the polls of the cancellation flag made so far, the
    text files by path, the log. *)
Record State := mkState {
  polls : nat;
  files : gmap string string;
  log : list Event
}.

Definition M (A : Type) : Type := State → res A * State.

Definition ret {A} (a : A) : M A := fun st => (Ok a, st).

Definition bind {A B} (m : M A) (k : A → M B) : M B :=
  fun st =>
    match m st with
    | (Ok a, st') => k a st'
    | (Raise e, st') => (Raise e, st')
    end.


(** [try: m except Exception as e: h e]. *)
Definition catch {A} (m : M A) (h : Exn → M A) : M A :=
  fun st =>
    match m st with
    | (Ok a, st') => (Ok a, st')
    | (Raise e, st') => h e st'
    end.

Notation "x <- m ;; k" := (bind m (fun x => k))
  (at level 62, m at next level, right associativity).
Notation "m ;;; k" := (bind m (fun _ => k))
  (at level 62, right associativity).

Definition emit (e : Event) : M unit :=
  fun st => (Ok tt, mkState (polls st) (files st) (log st ++ [e])).

Definition lift {A} (r : res A) : M A := fun st => (r, st).

(** [cfg.isCancelled()]: reads the flag the signal handler sets. *)
Definition isCancelled (w : World) : M bool :=
  fun st =>
    (Ok match sigint_at w with
        | Some k => (k <=? polls st)%nat
        | None => false
        end,
     mkState (S (polls st)) (files st) (log st)).

(** [os.path.isfile(p)]. *)
Definition isfile (w : World) (p : string) : M bool :=
  fun st =>
    (Ok (bool_decide (is_Some (files st !! p)) || bool_decide (is_Some (media w !! p))),
     st).

(** [cv2.VideoCapture(src)]: a path that is no media file does not open. *)
Definition VideoCapture (w : World) (src : string) : Video :=
  match media w !! src with
  | Some v => v
  | None => mkVideo false [] 0
  end.

(** ** The fingerprint store *)

(** [Configs.clearHashDB]. *)
Definition clearHashDB (cfg : Configs) : M unit :=
  fun st => (Ok tt, mkState (polls st) (<[db cfg := ""]> (files st)) (log st)).

(** [Configs.appendHashDB]: opens for appending (creating the file when it
    is missing) and writes the decimal line. *)
Definition appendHashDB (cfg : Configs) (hash : Z) : M unit :=
  fun st =>
    let old := default "" (files st !! db cfg) in
    (Ok tt,
     mkState (polls st) (<[db cfg := old ++ Py.str hash ++ "
"]> (files st)) (log st)).

Fixpoint appendAll (cfg : Configs) (hs : list Z) : M unit :=
  match hs with
  | [] => ret tt
  | h :: hs' => appendHashDB cfg h ;;; appendAll cfg hs'
  end.

(** [writeHashDB]. *)
Definition writeHashDB (cfg : Configs) (hashes : gset Z) : M unit :=
  clearHashDB cfg ;;; appendAll cfg (elements hashes).

(** The loop of [loadHashDB]: [r.add(int(line))] for every line. *)
Fixpoint addLines (lines : list string) (r : gset Z) : res (gset Z) :=
  match lines with
  | [] => Ok r
  | line :: rest =>
      match Py.int line with
      | Some z => addLines rest ({[z]} ∪ r)
      | None => Raise ValueError
      end
  end.

(** [loadHashDB]. *)
Definition loadHashDB (w : World) (cfg : Configs) : M (gset Z) :=
  ok <- isfile w (db cfg) ;;
  if negb ok then ret ∅
  else fun st =>
    match files st !! db cfg with
    | Some text => (addLines (Py.readlines (Py.universal_newlines text)) ∅, st)
    | None => (Raise ValueError, st)
    end.

(** ** Source files *)

(** [Configs.hasValidExtension]. *)
Definition hasValidExtension (cfg : Configs) (path : string) : bool :=
  match exts cfg with
  | None => true
  | Some es =>
      let lower := Py.lower path in
      existsb (fun ext => Py.endswith lower ext) (elements es)
  end.

(** The two nested loops of [getAllVideoFiles] over the result of
    [os.walk]. *)
Definition walkFiles (cfg : Configs)
    (tree : list (string * list string * list string)) : list string :=
  flat_map
    (fun '(currentpath, _, fs) =>
       flat_map
         (fun file =>
            if hasValidExtension cfg file then [Py.join currentpath file] else [])
         fs)
    tree.

(** [getAllVideoFiles]. *)
Definition getAllVideoFiles (w : World) (cfg : Configs) (path : string) : M (list string) :=
  f <- isfile w path ;;
  if f then ret (if hasValidExtension cfg path then [path] else [])
  else ret (walkFiles cfg (walk w path)).

(** ** The cut-point scanner *)

(** Which exit of the [while] loop of [findCutPoint] was taken. *)
Inductive Stop := FrameNovel | WindowExceeded | Cancelled | StreamEnded | NotOpened.

(** The [while video.isOpened()] loop of [findCutPoint] on an opened video,
    [fs] being the frames still to read and [t] the next sampling time. *)
Fixpoint scan (w : World) (cfg : Configs) (hashes : gset Z) (eof : Z)
    (fs : list Frame) (t : Z) {struct fs} : M (Stop * Z) :=
  c <- isCancelled w ;;
  if c then ret (Cancelled, -1)
  else
    match fs with
    | [] => ret (StreamEnded, eof)
    | f :: fs' =>
        let ms := frame_ms f in
        if ms >? max_header_length_ms cfg then ret (WindowExceeded, ms)
        else if ms >=? t then
          if isSimilar cfg hashes (frame_hash f) then scan w cfg hashes eof fs' (t + 1000)
          else ret (FrameNovel, ms)
        else scan w cfg hashes eof fs' t
    end.

(** [findCutPoint], with the exit taken next to the value it returns. *)
Definition findCutPoint_traced (w : World) (cfg : Configs) (hashes : gset Z)
    (src : string) : M (Stop * Z) :=
  let video := VideoCapture w src in
  if isOpened video then scan w cfg hashes (eof_ms video) (frames video) 1000
  else ret (NotOpened, 0).

(** [findCutPoint]. *)
Definition findCutPoint (w : World) (cfg : Configs) (hashes : gset Z)
    (src : string) : M Z :=
  r <- findCutPoint_traced w cfg hashes src ;; ret (snd r).

(** ** Cutting *)

Definition cut_dest (w : World) (cfg : Configs) (src : string) : string :=
  abspath w (Py.join (dest cfg) (Py.basename src)).

(** [cutOneVideoFile]; the result is [None] for Python's [None]. *)
Definition cutOneVideoFile (w : World) (cfg : Configs) (src : string) (ms : Z)
    : M (option bool) :=
  let dest := cut_dest w cfg src in
  let sec := Py.div1000 ms in
  emit (LogCutAt sec) ;;;
  emit (RunFfmpeg src sec dest) ;;;
  returncode <- lift (ffmpeg w src sec dest) ;;
  if negb (returncode =? 0) then emit LogFailed ;;; ret None
  else
    (if move_file_after_cut cfg then
       emit (LogMove dest src) ;;;
       emit (Move dest src) ;;;
       lift (shutil_move w dest src)
     else ret tt) ;;;
    emit LogSuccess ;;;
    ret (Some true).

(** The [except Exception as err] branch of [processVideoFile], with the
    [return False] it falls through to. *)
Definition on_error (err : Exn) : M (option bool) :=
  emit (LogUnexpected err) ;;; ret (Some false).

(** [processVideoFile]. *)
Definition processVideoFile (w : World) (cfg : Configs) (hashes : gset Z)
    (src : string) : M (option bool) :=
  f <- isfile w src ;;
  if negb f then emit (LogNotAFile src) ;;; ret None
  else
    emit (LogAnalyzing src) ;;;
    catch
      (end' <- findCutPoint w cfg hashes src ;;
       if end' >? 3000 then cutOneVideoFile w cfg src end'
       else emit LogPass ;;; ret (Some false))
      on_error.

(** Python truth of what [processVideoFile] returns. *)
Definition truthy (r : option bool) : bool :=
  match r with Some true => true | _ => false end.

(** The inner loop of [doCutVideoFiles], over the files of one source. *)
Fixpoint cutFiles (w : World) (cfg : Configs) (hashes : gset Z)
    (srcs : list string) (tally : Z * Z) : M (Z * Z) :=
  match srcs with
  | [] => ret tally
  | src :: rest =>
      c <- isCancelled w ;;
      if c then ret tally
      else
        r <- processVideoFile w cfg hashes src ;;
        let '(success, fail) := tally in
        cutFiles w cfg hashes rest
          (if truthy r then (success + 1, fail) else (success, fail + 1))
  end.

(** The outer loop of [doCutVideoFiles], over the sources. *)
Fixpoint cutSources (w : World) (cfg : Configs) (hashes : gset Z)
    (srcs : list string) (tally : Z * Z) : M (Z * Z) :=
  match srcs with
  | [] => ret tally
  | source :: more =>
      c <- isCancelled w ;;
      if c then ret tally
      else
        fs <- getAllVideoFiles w cfg source ;;
        tally' <- cutFiles w cfg hashes fs tally ;;
        cutSources w cfg hashes more tally'
  end.

(** [doCutVideoFiles]. *)
Definition doCutVideoFiles (w : World) (cfg : Configs) : M Z :=
  f <- isfile w (db cfg) ;;
  if negb f then emit (LogDbNotFound (db cfg)) ;;; ret 1
  else
    hashes <- loadHashDB w cfg ;;
    tally <- cutSources w cfg hashes (sources cfg) (0, 0) ;;
    let '(success, fail) := tally in
    emit (LogSummary (success + fail) success fail) ;;;
    ret 0.

(** ** Building the database *)

(** The [while] loop of [appendSampleVideoToHashDB] on an opened video. *)
Fixpoint addFrames (max : Z) (fs : list Frame) (db : gset Z) : gset Z :=
  match fs with
  | [] => db
  | f :: fs' =>
      if (max >? 0) && (frame_ms f >? max) then db
      else addFrames max fs' ({[frame_hash f]} ∪ db)
  end.

(** [appendSampleVideoToHashDB]; the set it updates in place is returned. *)
Definition appendSampleVideoToHashDB (w : World) (cfg : Configs) (db : gset Z)
    (src : string) (max : Z) : M (gset Z) :=
  f <- isfile w src ;;
  if negb f then ret db
  else
    let video := VideoCapture w src in
    ret (if isOpened video then addFrames max (frames video) db else db).

Fixpoint appendFiles (w : World) (cfg : Configs) (srcs : list string)
    (max : Z) (db : gset Z) : M (gset Z) :=
  match srcs with
  | [] => ret db
  | src :: rest =>
      db' <- appendSampleVideoToHashDB w cfg db src max ;;
      appendFiles w cfg rest max db'
  end.

Fixpoint appendSources (w : World) (cfg : Configs) (srcs : list string)
    (max : Z) (db : gset Z) : M (gset Z) :=
  match srcs with
  | [] => ret db
  | source :: more =>
      fs <- getAllVideoFiles w cfg source ;;
      db' <- appendFiles w cfg fs max db ;;
      appendSources w cfg more max db'
  end.

Definition isAppend (o : Operations) : bool :=
  match o with AppendToHashDB => true | _ => false end.

(** [doAppendHash]. *)
Definition doAppendHash (w : World) (cfg : Configs) : M Z :=
  if isAppend (op cfg) && (end_ cfg <? 1) then emit LogBadTime ;;; ret 1
  else
    let max := if isAppend (op cfg) then end_ cfg * 1000 else -1 in
    db <- loadHashDB w cfg ;;
    db' <- appendSources w cfg (sources cfg) max db ;;
    writeHashDB cfg db' ;;;
    ret 0.

(** ** Command line *)

Definition set_op (o : Operations) (c : Configs) : Configs :=
  mkConfigs (max_header_length_ms c) o (db c) (sources c) (dest c)
    (move_file_after_cut c) (log_file_name c) (exts c) (end_ c)
    (max_hamming_distance c).

Definition set_db (d : string) (c : Configs) : Configs :=
  mkConfigs (max_header_length_ms c) (op c) d (sources c) (dest c)
    (move_file_after_cut c) (log_file_name c) (exts c) (end_ c)
    (max_hamming_distance c).

Definition set_sources (s : list string) (c : Configs) : Configs :=
  mkConfigs (max_header_length_ms c) (op c) (db c) s (dest c)
    (move_file_after_cut c) (log_file_name c) (exts c) (end_ c)
    (max_hamming_distance c).

Definition set_dest (d : string) (c : Configs) : Configs :=
  mkConfigs (max_header_length_ms c) (op c) (db c) (sources c) d
    (move_file_after_cut c) (log_file_name c) (exts c) (end_ c)
    (max_hamming_distance c).

Definition set_move (b : bool) (c : Configs) : Configs :=
  mkConfigs (max_header_length_ms c) (op c) (db c) (sources c) (dest c)
    b (log_file_name c) (exts c) (end_ c) (max_hamming_distance c).

Definition set_log (l : option string) (c : Configs) : Configs :=
  mkConfigs (max_header_length_ms c) (op c) (db c) (sources c) (dest c)
    (move_file_after_cut c) l (exts c) (end_ c) (max_hamming_distance c).

Definition set_exts (e : option (gset string)) (c : Configs) : Configs :=
  mkConfigs (max_header_length_ms c) (op c) (db c) (sources c) (dest c)
    (move_file_after_cut c) (log_file_name c) e (end_ c)
    (max_hamming_distance c).

Definition set_end (n : Z) (c : Configs) : Configs :=
  mkConfigs (max_header_length_ms c) (op c) (db c) (sources c) (dest c)
    (move_file_after_cut c) (log_file_name c) (exts c) n
    (max_hamming_distance c).

(** [key in (a, b)]. *)
Definition key_in (key a b : string) : bool := String.eqb key a || String.eqb key b.

Definition nonempty (s : string) : bool := negb (String.eqb s "").

(** The value of [-e]:
    [set(["." + x for x in re.split(r' |,|\.', value.lower()) if x])]. *)
Definition parseExts (value : string) : gset string :=
  list_to_set (map (String ".") (filter (fun x => nonempty x = true) (Py.re_split (Py.lower value)))).

(** One turn of the [for key, value in opts] loop of [parseCmdOptions]:
    the updated configuration, [None] where the loop returns [None], or
    the [ValueError] of [int(value)]. *)
Definition parseOpt (w : World) (configs : Configs) (opt : string * string)
    : res (option Configs) :=
  let '(key, value) := opt in
  if key_in key "-b" "--build" then Ok (Some (set_op BuildHashDB configs))
  else if key_in key "-c" "--cut" then Ok (Some (set_op CutVideoFile configs))
  else if key_in key "-a" "--add" then Ok (Some (set_op AppendToHashDB configs))
  else if key_in key "-d" "--db" then Ok (Some (set_db value configs))
  else if key_in key "-e" "--ext" then Ok (Some (set_exts (Some (parseExts value)) configs))
  else if key_in key "-m" "--move" then Ok (Some (set_move true configs))
  else if key_in key "-l" "--log" then Ok (Some (set_log (Some value) configs))
  else if key_in key "-i" "--in" then
    if negb (path_exists w value) then Ok None
    else Ok (Some (set_sources (sources configs ++ [value]) configs))
  else if key_in key "-o" "--out" then
    if negb (isdir w value) then Ok None
    else Ok (Some (set_dest value configs))
  else if key_in key "-t" "--time" then
    match Py.int value with
    | Some n => Ok (Some (set_end n configs))
    | None => Raise ValueError
    end
  else Ok None.

Fixpoint parseOpts (w : World) (configs : Configs) (opts : list (string * string))
    : res (option Configs) :=
  match opts with
  | [] => Ok (Some configs)
  | opt :: rest =>
      match parseOpt w configs opt with
      | Ok (Some configs') => parseOpts w configs' rest
      | r => r
      end
  end.

(** [parseCmdOptions]: [args] is [sys.argv[1:]] and [opts] the pairs
    [getopt.getopt] makes of it. *)
Definition parseCmdOptions (w : World) (args : list string)
    (opts : list (string * string)) : res (option Configs) :=
  if (length args <? 1)%nat || bool_decide ("-h" ∈ args) || bool_decide ("--help" ∈ args)
  then Ok None
  else
    let configs := Configs_init in
    let configs :=
      if bool_decide ("-i" ∈ args) || bool_decide ("--in" ∈ args)
      then set_sources [] configs else configs in
    parseOpts w configs opts.

(** ** Entry point *)


(** ** Notions used in the statements *)

(** The values of the [-i] and [--in] options, in order. *)
Definition in_values (opts : list (string * string)) : list string :=
  map snd (filter (fun o => key_in (fst o) "-i" "--in" = true) opts).


(** The files a run resolves from [srcs], in the order it visits them. *)
Definition resolve (w : World) (cfg : Configs) (st : State) (srcs : list string)
    : list string :=
  flat_map
    (fun source =>
       match fst (getAllVideoFiles w cfg source st) with
       | Ok l => l
       | Raise _ => []
       end)
    srcs.

(** Every character of [s] satisfies [P]. *)
Fixpoint string_forall (P : ascii → bool) (s : string) : bool :=
  match s with
  | EmptyString => true
  | String a s' => P a && string_forall P s'
  end.

(** A decimal digit or the minus sign. *)
Definition numeric_char (a : ascii) : bool :=
  let n := N_of_ascii a in
  ((48 <=? n) && (n <=? 57) || (n =? 45))%N.

(** The text [writeHashDB] leaves in the database file for the members
    [hs], in the order it visits them. *)
Fixpoint db_text (hs : list Z) : string :=
  match hs with
  | [] => ""
  | h :: hs' => (Py.str h ++ "
" ++ db_text hs')%string
  end.

(** The state after [n] more polls of the cancellation flag. *)
Definition tick (n : nat) (st : State) : State :=
  mkState (n + polls st) (files st) (log st).

(** The state after the events [evs]. *)
Definition logged (evs : list Event) (st : State) : State :=
  mkState (polls st) (files st) (log st ++ evs).

(** The world in which no interrupt arrives, all else equal. *)
Definition calm (w : World) : World :=
  mkWorld (media w) (walk w) (abspath w) (ffmpeg w) (shutil_move w) None
    (path_exists w) (isdir w).

(** Frames in strictly increasing order of time. *)
Definition increasing (fs : list Frame) : Prop :=
  StronglySorted (fun f g => frame_ms f < frame_ms g) fs.

(** Every member of [db'] is a member of [db] or the fingerprint of a frame
    of some media file at no more than [bound] milliseconds. *)
Definition fed_by (w : World) (bound : Z) (db db' : gset Z) : Prop :=
  db ⊆ db' ∧
  ∀ h, h ∈ db' →
    h ∈ db ∨ ∃ src v f, media w !! src = Some v ∧ f ∈ frames v
                        ∧ frame_ms f ≤ bound ∧ frame_hash f = h.

(** ** Concrete runs *)

(** A world with the media files [m], an interrupt at poll [sig] if any,
    a directory ["in"] holding ["a.mp4"], and an [ffmpeg] that succeeds. *)
Definition world_of (m : gmap string Video) (sig : option nat) : World :=
  mkWorld m
    (fun p => if String.eqb p "in" then [("in", [], ["a.mp4"])] else [])
    (fun p => p) (fun _ _ _ => Ok 0) (fun _ _ => Ok tt)
    sig (fun _ => true) (fun _ => true).

Definition no_world : World := world_of ∅ None.

(** The start of a run in a directory without text files. *)
Definition st0 : State := mkState 0 ∅ [].

(** [-c -m -d clips.db -e "MP4 mkv"]. *)
Definition cut_args : list string := ["-c"; "-m"; "-d"; "clips.db"; "-e"; "MP4 mkv"].
Definition cut_opts : list (string * string) :=
  [("-c", ""); ("-m", ""); ("-d", "clips.db"); ("-e", "MP4 mkv")].
Definition cut_cfg : Configs :=
  set_exts (Some {[".mp4"; ".mkv"]})
    (set_db "clips.db" (set_move true (set_op CutVideoFile Configs_init))).

(** A known fingerprint and one at Hamming distance 10 from it. *)
Definition known_hash : Z := 0xF0F0F0F0F0F0F0F0.
Definition novel_hash : Z := Z.lxor known_hash 1023.

(** Two frames a second for six seconds: the known header up to 4.5 s,
    then other footage. *)
Definition header_stream : list Frame :=
  [mkFrame 0 known_hash; mkFrame 500 known_hash; mkFrame 1000 known_hash;
   mkFrame 1500 known_hash; mkFrame 2000 known_hash; mkFrame 2500 known_hash;
   mkFrame 3000 known_hash; mkFrame 3500 known_hash; mkFrame 4000 known_hash;
   mkFrame 4500 known_hash; mkFrame 5000 novel_hash; mkFrame 5500 novel_hash].

Definition header_world : World :=
  world_of {["in/a.mp4" := mkVideo true header_stream 5500]} None.

(** Seven frames a second: the first frame at or after one second is at
    1001 ms. *)
Definition ntsc_stream : list Frame :=
  [mkFrame 0 11; mkFrame 143 12; mkFrame 286 13; mkFrame 429 14; mkFrame 572 15;
   mkFrame 715 16; mkFrame 858 17; mkFrame 1001 18; mkFrame 1144 19].

Definition ntsc_world : World :=
  world_of {["in/a.mp4" := mkVideo true ntsc_stream 1144]} None.

(** The header stream again, with an interrupt that the fifth poll of the
    run finds: two polls before the file is started, the third poll of
    its scan. *)
Definition interrupted_world : World :=
  world_of {["in/a.mp4" := mkVideo true header_stream 5500]} (Some 4%nat).

(** The start of a run with a database file holding [known_hash]. *)
Definition st_db : State :=
  mkState 0 {["clips.db" := "17361641481138401520
"]} [].

(** One frame a second for twenty seconds, each with a fingerprint of its
    own. *)
Definition twenty_seconds : list Frame :=
  map (fun s => mkFrame (1000 * Z.of_nat s) (100 + Z.of_nat s)) (seq 0 21).

Definition sample_world : World :=
  world_of {["in/a.mp4" := mkVideo true twenty_seconds 20000]} None.

(** [-a -t 5] with the default database and source. *)
Definition append_cfg : Configs := set_end 5 (set_op AppendToHashDB Configs_init).

(** * Properties *)

Lemma default_threshold : max_hamming_distance Configs_init = 7.
Proof. vm_compute. reflexivity. Qed.

Lemma isSimilar_loop_true thr hash hs :
  fst (isSimilar_loop thr hash hs) = true ↔ ∃ h, h ∈ hs ∧ hamming h hash < thr.
Proof.
  induction hs as [|h hs IH]; simpl.
  - split; [discriminate | intros (h & Hin & _); by apply elem_of_nil in Hin].
  - destruct (Z.ltb_spec (hamming h hash) thr) as [Hlt | Hge]; simpl.
    + split; [intros _ | done]. exists h. split; [apply list_elem_of_here | done].
    + destruct (isSimilar_loop thr hash hs) as [r n]; simpl in *.
      rewrite IH. split.
      * intros (h' & Hin & Hlt). exists h'. split; [by apply list_elem_of_further | done].
      * intros (h' & Hin & Hlt). apply elem_of_cons in Hin as [-> | Hin]; [lia |].
        by exists h'.
Qed.

Lemma isSimilar_true cfg hashes hash :
  isSimilar cfg hashes hash = true ↔
  hash ∈ hashes ∨ ∃ h, h ∈ hashes ∧ hamming h hash < max_hamming_distance cfg.
Proof.
  unfold isSimilar, isSimilar_traced. case_decide as Hin; simpl.
  - split; [by left | done].
  - rewrite isSimilar_loop_true. split.
    + intros (h & Hh & Hlt). right. exists h. by rewrite <- elem_of_elements.
    + intros [? | (h & Hh & Hlt)]; [done |]. exists h. by rewrite elem_of_elements.
Qed.

(** C2: [isSimilar] answers true exactly when the candidate is a member of
    the set or some member is at Hamming distance strictly below the
    threshold; on an exact member it answers at once, having computed no
    distance. *)
Theorem isSimilar_spec (t : Z) (cfg : Configs) (hashes : gset Z) (hash : Z) :
  (isSimilar (with_threshold t cfg) hashes hash = true ↔
     hash ∈ hashes ∨ ∃ h, h ∈ hashes ∧ hamming h hash < t)
  ∧ (hash ∈ hashes ↔
     isSimilar_traced (with_threshold t cfg) hashes hash = (true, 0%nat)).
Proof.
  split; [apply isSimilar_true |].
  unfold isSimilar_traced. case_decide as Hin; [done |].
  split; [done |]. intros Hrun. exfalso.
  destruct (elements hashes) as [|h hs]; simpl in Hrun; [discriminate |].
  destruct (hamming h hash <? _); [discriminate |].
  destruct (isSimilar_loop _ hash hs). discriminate.
Qed.

Example py_int_1 : Py.int " -1_000 " = Some (-1000). Proof. reflexivity. Qed.
Example py_int_2 : Py.int "12a" = None. Proof. reflexivity. Qed.
Example py_int_3 : Py.int "" = None. Proof. reflexivity. Qed.
Example py_int_4 : Py.int "1__0" = None. Proof. reflexivity. Qed.
Example py_int_5 : Py.int "10_" = None. Proof. reflexivity. Qed.
Example py_int_6 : Py.int "+007
" = Some 7. Proof. reflexivity. Qed.
Example py_str_1 : Py.str (-120) = "-120". Proof. reflexivity. Qed.
Example py_str_2 : Py.str 0 = "0". Proof. reflexivity. Qed.
Example py_rl : Py.readlines "ab
cd" = ["ab
"; "cd"]. Proof. reflexivity. Qed.
Example py_base : Py.basename "in/x/a.mp4" = "a.mp4". Proof. reflexivity. Qed.
Example py_base2 : Py.basename "a.mp4" = "a.mp4". Proof. reflexivity. Qed.
Example py_base3 : Py.basename "in/" = "". Proof. reflexivity. Qed.
Example py_join : Py.join "out" "a.mp4" = "out/a.mp4". Proof. reflexivity. Qed.
Example py_join2 : Py.join "out/" "a.mp4" = "out/a.mp4". Proof. reflexivity. Qed.
Example py_lower : Py.lower "A.Mp4" = "a.mp4". Proof. reflexivity. Qed.
Example py_ends : Py.endswith "a.mp4" ".mp4" = true. Proof. reflexivity. Qed.
Example py_split : Py.re_split "mp4 mkv,.avi" = ["mp4"; "mkv"; ""; "avi"]. Proof. reflexivity. Qed.
Example py_div : Py.div1000 5000 = 5%Q. Proof. reflexivity. Qed.
Example py_ham : hamming 5 (-6) = 1. Proof. reflexivity. Qed.
Example py_ham2 : hamming 255 0 = 8. Proof. reflexivity. Qed.

(** C9: raising the threshold never turns a positive answer of
    [isSimilar] into a negative one. *)
Theorem isSimilar_monotone (cfg : Configs) (hashes : gset Z) (hash t t' : Z) :
  t ≤ t' →
  isSimilar (with_threshold t cfg) hashes hash = true →
  isSimilar (with_threshold t' cfg) hashes hash = true.
Proof.
  intros Hle. rewrite !isSimilar_true. simpl.
  intros [Hin | (h & Hin & Hlt)]; [by left | right].
  exists h. split; [done | lia].
Qed.

Lemma isSimilar_monotone_witness :
  7 ≤ 9 ∧ isSimilar (with_threshold 7 Configs_init) {[0]} 3 = true
  ∧ isSimilar (with_threshold 9 Configs_init) {[0]} 3 = true.
Proof.
  split; [lia |]. split; [vm_compute; reflexivity |].
  apply (isSimilar_monotone Configs_init {[0]} 3 7 9); [lia | vm_compute; reflexivity].
Defined.

(** ** The threshold *)

Lemma parseOpt_threshold w c opt c' :
  parseOpt w c opt = Ok (Some c') → max_hamming_distance c' = max_hamming_distance c.
Proof.
  destruct opt as [key value]. unfold parseOpt.
  repeat (match goal with
          | |- context [if ?b then _ else _] => destruct b
          | |- context [match Py.int ?v with _ => _ end] => destruct (Py.int v)
          end; try (intros [= <-]; reflexivity); try discriminate).
Qed.

Lemma parseOpts_threshold w opts : ∀ c c',
  parseOpts w c opts = Ok (Some c') → max_hamming_distance c' = max_hamming_distance c.
Proof.
  induction opts as [|opt rest IH]; simpl; intros c c'.
  - by intros [= <-].
  - destruct (parseOpt w c opt) as [[c1|]|e] eqn:Hopt; try discriminate.
    intros Hrest. rewrite (IH _ _ Hrest). by eapply parseOpt_threshold.
Qed.

(** C6: the threshold of a run is [ceil(8 * 4 * (1 - 0.8))], which is 7;
    no command-line option changes it, and it is the bound every
    membership test of the run compares against. *)
Theorem threshold_fixed (w : World) (args : list string)
    (opts : list (string * string)) (cfg : Configs) :
  parseCmdOptions w args opts = Ok (Some cfg) →
  max_hamming_distance cfg
    = Py.math_ceil (PrimFloat.mul (PrimFloat.mul 8 4) (PrimFloat.sub 1 similarity))
  ∧ max_hamming_distance cfg = 7
  ∧ ∀ (hashes : gset Z) (hash : Z),
      isSimilar cfg hashes hash = true ↔
      hash ∈ hashes ∨ ∃ h, h ∈ hashes ∧ hamming h hash < 7.
Proof.
  unfold parseCmdOptions. destruct (_ || _ || _); [discriminate |].
  intros Hopts. apply parseOpts_threshold in Hopts.
  assert (max_hamming_distance cfg = max_hamming_distance Configs_init) as Hinit.
  { rewrite Hopts. by destruct (_ || _). }
  split; [exact Hinit |]. rewrite default_threshold in Hinit.
  split; [exact Hinit |]. intros hashes hash. by rewrite isSimilar_true, Hinit.
Qed.


Lemma threshold_fixed_witness :
  parseCmdOptions no_world cut_args cut_opts = Ok (Some cut_cfg)
  ∧ max_hamming_distance cut_cfg = 7.
Proof.
  assert (parseCmdOptions no_world cut_args cut_opts = Ok (Some cut_cfg)) as H.
  { vm_compute. reflexivity. }
  split; [exact H |].
  exact (proj1 (proj2 (threshold_fixed no_world cut_args cut_opts cut_cfg H))).
Defined.

(** ** The fingerprint store: writing and reading back *)

Lemma numeric_char_facts a :
  numeric_char a = true →
  Py.isspace a = false ∧ Ascii.eqb a "010" = false ∧ Ascii.eqb a "013" = false
  ∧ Ascii.eqb a "_" = false.
Proof.
  destruct a as [[] [] [] [] [] [] [] []]; vm_compute; intros; try discriminate; auto.
Qed.

Lemma string_of_uint_numeric u :
  string_forall numeric_char (NilEmpty.string_of_uint u) = true.
Proof. induction u; simpl; auto. Qed.

Lemma str_numeric z : string_forall numeric_char (Py.str z) = true.
Proof.
  unfold Py.str. destruct (Z.to_int z); simpl; apply string_of_uint_numeric.
Qed.

Lemma rstrip_line s :
  string_forall numeric_char s = true → Py.rstrip (s ++ "
") = s.
Proof.
  induction s as [|a s IH]; simpl; [done |].
  intros [Ha Hs]%andb_true_iff. rewrite (IH Hs).
  destruct (numeric_char_facts a Ha) as (-> & _). by destruct s.
Qed.

Lemma lstrip_numeric s : string_forall numeric_char s = true → Py.lstrip s = s.
Proof.
  destruct s as [|a s]; simpl; [done |].
  intros [Ha _]%andb_true_iff. by destruct (numeric_char_facts a Ha) as (-> & _).
Qed.

Lemma strip_line s :
  string_forall numeric_char s = true → Py.strip (s ++ "
") = s.
Proof. intros Hs. unfold Py.strip. by rewrite rstrip_line, lstrip_numeric. Qed.

Lemma digits_string_of_uint u : ∀ b,
  u ≠ Decimal.Nil ∨ b = true → Py.digits b (NilEmpty.string_of_uint u) = Some u.
Proof.
  induction u; intros b Hb; simpl;
    try (rewrite IHu by (by right); reflexivity).
  destruct Hb as [? | ->]; done.
Qed.

Lemma int_string_of_uint u :
  u ≠ Decimal.Nil →
  Py.int (NilEmpty.string_of_uint u ++ "
") = Some (Z.of_int (Decimal.Pos u))
  ∧ Py.int (String "-" (NilEmpty.string_of_uint u) ++ "
") = Some (Z.of_int (Decimal.Neg u)).
Proof.
  intros Hu. unfold Py.int. split.
  - rewrite strip_line by apply string_of_uint_numeric.
    transitivity (option_map (λ d, Z.of_int (Decimal.Pos d))
                    (Py.digits false (NilEmpty.string_of_uint u))).
    + by destruct u.
    + rewrite digits_string_of_uint by (by left). done.
  - rewrite (strip_line (String "-" _)) by (simpl; apply string_of_uint_numeric).
    rewrite digits_string_of_uint by (by left). done.
Qed.

Lemma int_str_line z : Py.int (Py.str z ++ "
") = Some z.
Proof.
  rewrite <- (DecimalZ.of_to z) at 2. unfold Py.str.
  destruct z as [|p|p]; simpl Z.to_int; simpl NilEmpty.string_of_int.
  - reflexivity.
  - apply int_string_of_uint, Unsigned.to_uint_nonnil.
  - apply int_string_of_uint, Unsigned.to_uint_nonnil.
Qed.

Lemma readlines_line s rest :
  string_forall numeric_char s = true →
  Py.readlines (s ++ "
" ++ rest) = (s ++ "
")%string :: Py.readlines rest.
Proof.
  induction s as [|a s IH]; simpl; [done |].
  intros [Ha Hs]%andb_true_iff. rewrite (IH Hs).
  by destruct (numeric_char_facts a Ha) as (_ & -> & _).
Qed.

Lemma readlines_db_text hs :
  Py.readlines (db_text hs) = map (λ h, Py.str h ++ "
")%string hs.
Proof.
  induction hs as [|h hs IH]; simpl; [done |].
  rewrite readlines_line by apply str_numeric. by rewrite IH.
Qed.

Lemma universal_newlines_line s rest :
  string_forall numeric_char s = true →
  Py.universal_newlines (s ++ "
" ++ rest) = (s ++ "
" ++ Py.universal_newlines rest)%string.
Proof.
  induction s as [|a s IH]; simpl; [done |].
  intros [Ha Hs]%andb_true_iff. rewrite (IH Hs).
  by destruct (numeric_char_facts a Ha) as (_ & _ & -> & _).
Qed.

Lemma universal_newlines_db_text hs : Py.universal_newlines (db_text hs) = db_text hs.
Proof.
  induction hs as [|h hs IH]; simpl; [done |].
  rewrite universal_newlines_line by apply str_numeric. by rewrite IH.
Qed.

Lemma addLines_db hs : ∀ r : gset Z,
  addLines (map (λ h, Py.str h ++ "
")%string hs) r = Ok (list_to_set hs ∪ r).
Proof.
  induction hs as [|h hs IH]; intros r; simpl.
  - f_equal. set_solver.
  - rewrite int_str_line, IH. f_equal. set_solver.
Qed.

Lemma append_nil_r (s : string) : (s ++ "")%string = s.
Proof. induction s as [|a s IH]; [done | exact (f_equal (String a) IH)]. Qed.

Lemma append_assoc (s1 s2 s3 : string) :
  ((s1 ++ s2) ++ s3)%string = (s1 ++ s2 ++ s3)%string.
Proof. induction s1 as [|a s1 IH]; [done | exact (f_equal (String a) IH)]. Qed.

Lemma appendAll_run cfg hs : ∀ st old,
  files st !! db cfg = Some old →
  ∃ st', appendAll cfg hs st = (Ok tt, st')
         ∧ files st' !! db cfg = Some (old ++ db_text hs)%string
         ∧ polls st' = polls st ∧ log st' = log st.
Proof.
  induction hs as [|h hs IH]; intros st old Hold; simpl.
  - exists st. unfold ret. by rewrite append_nil_r.
  - unfold bind, appendHashDB. rewrite Hold. simpl.
    edestruct (IH (mkState (polls st)
                 (<[db cfg := (old ++ Py.str h ++ "
")%string]> (files st)) (log st))) as (st' & Hrun & Hfile & Hp & Hl).
    { simpl. apply lookup_insert_eq. }
    exists st'. rewrite Hrun. repeat split; try done.
    by rewrite Hfile, !append_assoc.
Qed.

Lemma writeHashDB_run cfg hashes st :
  ∃ st', writeHashDB cfg hashes st = (Ok tt, st')
         ∧ files st' !! db cfg = Some (db_text (elements hashes))
         ∧ polls st' = polls st ∧ log st' = log st.
Proof.
  unfold writeHashDB, bind, clearHashDB.
  edestruct (appendAll_run cfg (elements hashes)
               (mkState (polls st) (<[db cfg := ""]> (files st)) (log st)) "")
    as (st' & Hrun & Hfile & Hp & Hl).
  { simpl. apply lookup_insert_eq. }
  exists st'. by rewrite Hrun.
Qed.

Lemma loadHashDB_db_text w cfg st hs :
  files st !! db cfg = Some (db_text hs) →
  loadHashDB w cfg st = (Ok (list_to_set hs), st).
Proof.
  intros Hfile. unfold loadHashDB, bind, isfile. rewrite Hfile. simpl.
  rewrite Hfile.
  rewrite universal_newlines_db_text, readlines_db_text, addLines_db.
  do 2 f_equal. set_solver.
Qed.

(** C8: writing a fingerprint set with [writeHashDB] and reading the file
    back with [loadHashDB] gives the set again. *)
Theorem write_then_load (w : World) (cfg : Configs) (hashes : gset Z) (st : State) :
  fst (writeHashDB cfg hashes st) = Ok tt
  ∧ fst (loadHashDB w cfg (snd (writeHashDB cfg hashes st))) = Ok hashes.
Proof.
  destruct (writeHashDB_run cfg hashes st) as (st' & -> & Hfile & _).
  split; [done |]. simpl.
  rewrite (loadHashDB_db_text _ _ _ _ Hfile). simpl.
  f_equal. apply list_to_set_elements_L.
Qed.

(** ** The extension filter *)

Lemma append_cons (a : ascii) (s t : string) :
  (String a s ++ t)%string = String a (s ++ t)%string.
Proof. reflexivity. Qed.

Lemma length_append (s t : string) :
  String.length (s ++ t) = (String.length s + String.length t)%nat.
Proof.
  induction s as [|a s IH]; [done |]. rewrite append_cons. simpl. by rewrite IH.
Qed.

Lemma substring_all (s : string) : substring 0 (String.length s) s = s.
Proof. induction s as [|a s IH]; simpl; [done | by rewrite IH]. Qed.

Lemma substring_append (pre s : string) :
  substring (String.length pre) (String.length s) (pre ++ s) = s.
Proof.
  induction pre as [|a pre IH]; [apply substring_all |].
  rewrite append_cons. simpl. exact IH.
Qed.

Lemma substring_split (s : string) : ∀ k,
  (k ≤ String.length s)%nat →
  s = (substring 0 k s ++ substring k (String.length s - k) s)%string.
Proof.
  induction s as [|a s IH]; intros k Hk.
  - by destruct k.
  - destruct k as [|k].
    + simpl. by rewrite substring_all.
    + simpl in Hk. simpl. rewrite append_cons. f_equal. apply IH. lia.
Qed.

Lemma endswith_spec (s suffix : string) :
  Py.endswith s suffix = true ↔ ∃ pre, s = (pre ++ suffix)%string.
Proof.
  unfold Py.endswith. rewrite andb_true_iff, Nat.leb_le, String.eqb_eq. split.
  - intros [Hle Hsub].
    exists (substring 0 (String.length s - String.length suffix) s).
    rewrite <- Hsub at 2.
    rewrite (substring_split s (String.length s - String.length suffix)) at 1 by lia.
    do 2 f_equal. lia.
  - intros [pre ->]. rewrite length_append. split; [lia |].
    replace (String.length pre + String.length suffix - String.length suffix)%nat
      with (String.length pre) by lia.
    apply substring_append.
Qed.

Lemma hasValidExtension_some cfg es path :
  exts cfg = Some es →
  hasValidExtension cfg path = true ↔
  ∃ ext, ext ∈ es ∧ ∃ pre, Py.lower path = (pre ++ ext)%string.
Proof.
  intros Hes. unfold hasValidExtension. rewrite Hes, existsb_exists. split.
  - intros (ext & Hin & Hend). exists ext.
    rewrite <- list_elem_of_In, elem_of_elements in Hin.
    split; [done | by apply endswith_spec].
  - intros (ext & Hin & Hend). exists ext.
    rewrite <- list_elem_of_In, elem_of_elements.
    split; [done | by apply endswith_spec].
Qed.

Lemma hasValidExtension_lower cfg p q :
  Py.lower q = Py.lower p → hasValidExtension cfg q = hasValidExtension cfg p.
Proof. intros Hl. unfold hasValidExtension. by rewrite Hl. Qed.

Lemma walkFiles_elem cfg tree p :
  p ∈ walkFiles cfg tree ↔
  ∃ cur dirs fs file, (cur, dirs, fs) ∈ tree ∧ file ∈ fs
    ∧ hasValidExtension cfg file = true ∧ p = Py.join cur file.
Proof.
  unfold walkFiles. rewrite list_elem_of_In, in_flat_map. split.
  - intros ([[cur dirs] fs] & Hin & Hp). apply in_flat_map in Hp as (file & Hf & Hp).
    exists cur, dirs, fs, file. rewrite !list_elem_of_In.
    destruct (hasValidExtension cfg file); [| by destruct Hp].
    destruct Hp as [<- | []]. done.
  - intros (cur & dirs & fs & file & Hin & Hf & Hv & ->).
    exists (cur, dirs, fs). rewrite <- list_elem_of_In. split; [done |].
    apply in_flat_map. exists file. rewrite <- list_elem_of_In, Hv.
    split; [done | by left].
Qed.

Lemma parseExts_dotted value ext :
  ext ∈ parseExts value → ∃ x, x ≠ "" ∧ ext = String "." x.
Proof.
  unfold parseExts. rewrite elem_of_list_to_set, list_elem_of_In, in_map_iff.
  intros (x & <- & Hx). exists x. split; [| done].
  apply list_elem_of_In, list_elem_of_filter in Hx as [Hne _].
  unfold nonempty in Hne. apply negb_true_iff, String.eqb_neq in Hne. done.
Qed.

(** C10: without an allow-list every path passes; with one, a path passes
    exactly when its lower-cased form ends with a listed extension, so
    the case of the path does not matter; [getAllVideoFiles] applies the
    filter to a source that is a file and to every file name of a
    directory walk; the extensions the command line configures start
    with a dot. *)
Theorem extension_filter (w : World) (cfg : Configs) (st : State) (path p : string) :
  (exts cfg = None → hasValidExtension cfg path = true)
  ∧ (∀ es, exts cfg = Some es →
       (hasValidExtension cfg path = true ↔
        ∃ ext, ext ∈ es ∧ ∃ pre, Py.lower path = (pre ++ ext)%string))
  ∧ (∀ q, Py.lower q = Py.lower path →
       hasValidExtension cfg q = hasValidExtension cfg path)
  ∧ (∃ l, getAllVideoFiles w cfg path st = (Ok l, st)
       ∧ (fst (isfile w path st) = Ok true →
            (p ∈ l ↔ p = path ∧ hasValidExtension cfg path = true))
       ∧ (fst (isfile w path st) = Ok false →
            (p ∈ l ↔ ∃ cur dirs fs file, (cur, dirs, fs) ∈ walk w path ∧ file ∈ fs
                       ∧ hasValidExtension cfg file = true ∧ p = Py.join cur file)))
  ∧ (∀ value ext, ext ∈ parseExts value → ∃ x, x ≠ "" ∧ ext = String "." x).
Proof.
  split; [| split; [| split; [| split]]].
  - intros Hnone. unfold hasValidExtension. by rewrite Hnone.
  - intros es Hes. by apply hasValidExtension_some.
  - intros q. apply hasValidExtension_lower.
  - unfold getAllVideoFiles, bind, isfile, ret. simpl.
    destruct (_ || _); eexists; (split; [reflexivity |]); split; try done.
    + intros _. destruct (hasValidExtension cfg path).
      * rewrite list_elem_of_singleton. naive_solver.
      * rewrite elem_of_nil. naive_solver.
    + intros _. apply walkFiles_elem.
  - apply parseExts_dotted.
Qed.

Example extension_case_insensitive :
  hasValidExtension cut_cfg "in/Movie.MP4" = true
  ∧ hasValidExtension cut_cfg "in/movie.mp4" = true
  ∧ hasValidExtension cut_cfg "in/movie.mp4.txt" = false.
Proof. vm_compute. done. Qed.

(** ** The scanner *)

Lemma hamming_self h : hamming h h = 0.
Proof. unfold hamming. by rewrite Z.lxor_nilpotent. Qed.

Lemma hamming_sym a b : hamming a b = hamming b a.
Proof. unfold hamming. by rewrite Z.lxor_comm. Qed.

Lemma isSimilar_false cfg hashes hash :
  isSimilar cfg hashes hash = false ↔
  (hash ∉ hashes) ∧ (∀ h, h ∈ hashes → max_hamming_distance cfg ≤ hamming h hash).
Proof.
  rewrite <- not_true_iff_false, isSimilar_true. split.
  - intros Hno. split; [tauto |]. intros h Hh.
    destruct (Z.lt_ge_cases (hamming h hash) (max_hamming_distance cfg)); [| done].
    exfalso. apply Hno. right. by exists h.
  - intros [Hni Hfar] [Hin | (h & Hh & Hlt)]; [done |].
    specialize (Hfar h Hh). lia.
Qed.

Lemma isSimilar_empty cfg hash : isSimilar cfg ∅ hash = false.
Proof. apply isSimilar_false. set_solver. Qed.

Lemma isCancelled_calm w st :
  sigint_at w = None → isCancelled w st = (Ok false, tick 1 st).
Proof. intros Hw. unfold isCancelled. by rewrite Hw. Qed.

Lemma tick_tick n m st : tick n (tick m st) = tick (n + m) st.
Proof. unfold tick. simpl. f_equal. lia. Qed.

(** The scan always returns, and touches neither the files nor the log. *)
Lemma scan_total w cfg hashes eof fs : ∀ t st,
  ∃ r n, scan w cfg hashes eof fs t st = (Ok r, tick n st) ∧ (1 ≤ n)%nat.
Proof.
  induction fs as [|f fs IH]; intros t st; simpl; unfold bind;
    destruct (isCancelled w st) as [[c|e] st1] eqn:Hc;
    unfold isCancelled in Hc; simplify_eq; change (mkState (S (polls st)) (files st) (log st)) with (tick 1 st).
  - destruct (match sigint_at w with Some k => _ | None => _ end); unfold ret; eauto.
  - destruct (match sigint_at w with Some k => _ | None => _ end); unfold ret; [eauto |].
    destruct (_ >? _); [eauto |].
    destruct (_ >=? _); [destruct (isSimilar _ _ _) |]; eauto.
    + destruct (IH (t + 1000) (tick 1 st)) as (r & n & -> & Hn).
      exists r, (n + 1)%nat. rewrite tick_tick. split; [done | lia].
    + destruct (IH t (tick 1 st)) as (r & n & -> & Hn).
      exists r, (n + 1)%nat. rewrite tick_tick. split; [done | lia].
Qed.

(** Against frames below the sampling time, then a frame at or after it
    that is not known, the scan stops at that frame. *)
Lemma scan_first_sample_novel w cfg hashes eof pre f post : ∀ t st,
  sigint_at w = None →
  (∀ g, g ∈ pre → frame_ms g < t) →
  t ≤ frame_ms f → frame_ms f ≤ max_header_length_ms cfg →
  isSimilar cfg hashes (frame_hash f) = false →
  scan w cfg hashes eof (pre ++ f :: post) t st
  = (Ok (FrameNovel, frame_ms f), tick (S (length pre)) st).
Proof.
  intros t st Hw Hpre Ht Hmax Hnovel. revert st.
  induction pre as [|g pre IH]; intros st; simpl; unfold bind;
    rewrite (isCancelled_calm _ _ Hw).
  - destruct (Z.gtb_spec (frame_ms f) (max_header_length_ms cfg)); [lia |].
    destruct (Z.geb_spec (frame_ms f) t); [| lia]. by rewrite Hnovel.
  - assert (frame_ms g < t) by (apply Hpre; left).
    destruct (Z.gtb_spec (frame_ms g) (max_header_length_ms cfg)); [lia |].
    destruct (Z.geb_spec (frame_ms g) t); [lia |].
    rewrite IH by (intros; apply Hpre; by right).
    by rewrite tick_tick, Nat.add_1_r.
Qed.

Lemma increasing_head f fs g :
  increasing (f :: fs) → g ∈ f :: fs → frame_ms g = frame_ms f → g = f.
Proof.
  intros Hs Hin Hms. apply StronglySorted_inv in Hs as [_ Hall].
  apply elem_of_cons in Hin as [-> | Hin]; [done |].
  rewrite Forall_forall in Hall. specialize (Hall g Hin). lia.
Qed.

Lemma increasing_head_le f fs g :
  increasing (f :: fs) → g ∈ f :: fs → frame_ms f ≤ frame_ms g.
Proof.
  intros Hs Hin. apply StronglySorted_inv in Hs as [_ Hall].
  apply elem_of_cons in Hin as [-> | Hin]; [done |].
  rewrite Forall_forall in Hall. specialize (Hall g Hin). lia.
Qed.

Lemma increasing_tail_mem f fs g :
  g ∈ f :: fs → frame_ms f < frame_ms g → g ∈ fs.
Proof. intros [-> | Hin]%elem_of_cons Hlt; [lia | done]. Qed.

(** On an increasing stream holding [n] known samples at [t], [t + 1000],
    ... and an unknown one a second after the last, the scan stops at the
    unknown one. *)
Lemma scan_known_then_novel w cfg hashes eof known novel fs : ∀ (n : nat) t st,
  sigint_at w = None →
  isSimilar cfg hashes known = true →
  isSimilar cfg hashes novel = false →
  increasing fs →
  (∀ i : nat, (i < n)%nat → mkFrame (t + 1000 * Z.of_nat i) known ∈ fs) →
  mkFrame (t + 1000 * Z.of_nat n) novel ∈ fs →
  t + 1000 * Z.of_nat n ≤ max_header_length_ms cfg →
  ∃ k, scan w cfg hashes eof fs t st = (Ok (FrameNovel, t + 1000 * Z.of_nat n), tick k st).
Proof.
  intros n t st Hw Hknown Hnovel. revert n t st.
  induction fs as [|f fs IH]; intros n t st Hs Hsamples Hlast Hmax.
  { by apply elem_of_nil in Hlast. }
  simpl. unfold bind. rewrite (isCancelled_calm _ _ Hw).
  pose proof (increasing_head_le _ _ _ Hs Hlast) as Hle. simpl in Hle.
  destruct (Z.gtb_spec (frame_ms f) (max_header_length_ms cfg)); [lia |].
  assert (increasing fs) as Hs' by (by apply StronglySorted_inv in Hs as [? _]).
  destruct (Z.geb_spec (frame_ms f) t) as [Hge | Hlt].
  - destruct n as [|n].
    + assert (mkFrame (t + 1000 * Z.of_nat 0) novel = f) as <-.
      { apply (increasing_head _ fs); [done.. |]. simpl in *. lia. }
      simpl. rewrite Hnovel. unfold ret. eauto.
    + pose proof (Hsamples 0%nat ltac:(lia)) as H0.
      pose proof (increasing_head_le _ _ _ Hs H0) as Hle0. simpl in Hle0.
      assert (mkFrame (t + 1000 * Z.of_nat 0) known = f) as <-.
      { apply (increasing_head _ fs); [done.. |]. simpl in *. lia. }
      simpl. rewrite Hknown.
      destruct (IH n (t + 1000) (tick 1 st)) as (k & Hk); [done | | | |].
      * intros i Hi. specialize (Hsamples (S i) ltac:(lia)).
        eapply increasing_tail_mem in Hsamples; [| simpl; lia].
        replace (t + 1000 + 1000 * Z.of_nat i) with (t + 1000 * Z.of_nat (S i)) by lia.
        done.
      * eapply increasing_tail_mem in Hlast; [| simpl; lia].
        replace (t + 1000 + 1000 * Z.of_nat n) with (t + 1000 * Z.of_nat (S n)) by lia.
        done.
      * lia.
      * rewrite Hk, tick_tick.
        replace (t + 1000 + 1000 * Z.of_nat n) with (t + 1000 * Z.of_nat (S n)) by lia.
        eauto.
  - destruct (IH n t (tick 1 st)) as (k & Hk); [done | | | done |].
    + intros i Hi. specialize (Hsamples i Hi).
      eapply increasing_tail_mem in Hsamples; [done | simpl; lia].
    + eapply increasing_tail_mem in Hlast; [done | simpl; lia].
    + rewrite Hk, tick_tick. eauto.
Qed.

(** C5 as the code has it: against an empty database and without an
    interrupt, the scan stops with [FrameNovel] at the first frame at or
    after 1000 ms, whatever its time within the window. *)
Theorem empty_db_first_sample (w : World) (cfg : Configs) (src : string)
    (v : Video) (pre post : list Frame) (f : Frame) (st : State) :
  sigint_at w = None →
  media w !! src = Some v →
  isOpened v = true →
  frames v = (pre ++ f :: post)%list →
  (∀ g, g ∈ pre → frame_ms g < 1000) →
  1000 ≤ frame_ms f →
  frame_ms f ≤ max_header_length_ms cfg →
  findCutPoint_traced w cfg ∅ src st
  = (Ok (FrameNovel, frame_ms f), tick (S (length pre)) st).
Proof.
  intros Hw Hv Hopen Hfs Hpre Hlo Hhi.
  unfold findCutPoint_traced, VideoCapture. rewrite Hv, Hopen, Hfs.
  apply scan_first_sample_novel; auto using isSimilar_empty.
Qed.

Lemma empty_db_first_sample_witness :
  findCutPoint_traced ntsc_world Configs_init ∅ "in/a.mp4" st0
  = (Ok (FrameNovel, 1001), tick 8 st0).
Proof.
  apply (empty_db_first_sample ntsc_world Configs_init "in/a.mp4"
           (mkVideo true ntsc_stream 1144)
           [mkFrame 0 11; mkFrame 143 12; mkFrame 286 13; mkFrame 429 14;
            mkFrame 572 15; mkFrame 715 16; mkFrame 858 17]
           [mkFrame 1144 19] (mkFrame 1001 18) st0).
  - reflexivity.
  - reflexivity.
  - reflexivity.
  - reflexivity.
  - intros g Hg. repeat (apply elem_of_cons in Hg as [-> | Hg]; [simpl; lia |]).
    by apply elem_of_nil in Hg.
  - simpl. lia.
  - vm_compute. discriminate.
Defined.

(** C5 as stated fails: a non-empty stream, an empty database, and the
    scan stops at 1001 ms, not at 1000 ms. *)
Lemma empty_db_scan_not_at_1000 :
  frames (VideoCapture ntsc_world "in/a.mp4") ≠ []
  ∧ fst (findCutPoint_traced ntsc_world Configs_init ∅ "in/a.mp4" st0)
    = Ok (FrameNovel, 1001)
  ∧ fst (findCutPoint_traced ntsc_world Configs_init ∅ "in/a.mp4" st0)
    ≠ Ok (FrameNovel, 1000).
Proof.
  assert (fst (findCutPoint_traced ntsc_world Configs_init ∅ "in/a.mp4" st0)
          = Ok (FrameNovel, 1001)) as H by (vm_compute; reflexivity).
  split; [vm_compute; discriminate |]. split; [exact H |].
  rewrite H. discriminate.
Qed.

(** ** One file *)

Lemma findCutPoint_traced_total w cfg hashes src st :
  ∃ r n, findCutPoint_traced w cfg hashes src st = (Ok r, tick n st).
Proof.
  unfold findCutPoint_traced. destruct (isOpened _).
  - destruct (scan_total w cfg hashes (eof_ms (VideoCapture w src))
                (frames (VideoCapture w src)) 1000 st) as (r & n & -> & _). eauto.
  - exists (NotOpened, 0), 0%nat. unfold ret, tick. by destruct st.
Qed.

Lemma processVideoFile_file w cfg hashes src st stop ms st1 :
  fst (isfile w src st) = Ok true →
  findCutPoint_traced w cfg hashes src (logged [LogAnalyzing src] st)
  = (Ok (stop, ms), st1) →
  processVideoFile w cfg hashes src st
  = if ms >? 3000 then catch (cutOneVideoFile w cfg src ms) on_error st1
    else (Ok (Some false), logged [LogPass] st1).
Proof.
  intros Hfile Hscan. unfold processVideoFile, bind at 1.
  unfold isfile in *. simpl in Hfile. injection Hfile as ->. simpl.
  unfold bind at 1, emit at 1. fold (logged [LogAnalyzing src] st).
  unfold catch, bind at 1, findCutPoint, bind at 1. rewrite Hscan. simpl.
  destruct (ms >? 3000); [done |]. reflexivity.
Qed.

Lemma cutOneVideoFile_run w cfg src ms st :
  ∃ r tail,
    catch (cutOneVideoFile w cfg src ms) on_error st
    = (Ok r, logged (([LogCutAt (Py.div1000 ms);
                      RunFfmpeg src (Py.div1000 ms) (cut_dest w cfg src)] ++ tail)%list) st).
Proof.
  unfold cutOneVideoFile.
  destruct (ffmpeg w src (Py.div1000 ms) (cut_dest w cfg src)) as [rc | e] eqn:Hrun;
    [destruct (rc =? 0) eqn:Hrc;
     [destruct (move_file_after_cut cfg) eqn:Hmv;
      [destruct (shutil_move w (cut_dest w cfg src) src) as [[] | e] eqn:Hmove |] |] |];
    repeat (progress (unfold catch, bind, emit, lift, on_error, ret, logged; simpl;
                      rewrite ?Hrun, ?Hrc, ?Hmv, ?Hmove; simpl));
    do 2 eexists; do 2 f_equal; rewrite <- ?app_assoc; simpl; reflexivity.
Qed.

(** C3: a file that is scanned is cut, at a thousandth of the time the
    scan returns, exactly when that time is above 3000 ms; otherwise the
    file passes: nothing is run, nothing is moved, no file changes. *)
Theorem cut_iff_beyond_3000 (w : World) (cfg : Configs) (hashes : gset Z)
    (src : string) (st : State) :
  fst (isfile w src st) = Ok true →
  ∃ stop ms st1 r st2 evs,
    findCutPoint_traced w cfg hashes src (logged [LogAnalyzing src] st)
    = (Ok (stop, ms), st1)
    ∧ processVideoFile w cfg hashes src st = (Ok r, st2)
    ∧ log st2 = (log st ++ LogAnalyzing src :: evs)%list
    ∧ files st2 = files st
    ∧ ((∃ sec dest, RunFfmpeg src sec dest ∈ evs) ↔ 3000 < ms)
    ∧ (3000 < ms →
       ∃ tail, evs = ([LogCutAt (Py.div1000 ms);
                      RunFfmpeg src (Py.div1000 ms) (cut_dest w cfg src)] ++ tail)%list)
    ∧ (ms ≤ 3000 → evs = [LogPass] ∧ r = Some false).
Proof.
  intros Hfile.
  destruct (findCutPoint_traced_total w cfg hashes src (logged [LogAnalyzing src] st))
    as ([stop ms] & n & Hscan).
  rewrite (processVideoFile_file _ _ _ _ _ _ _ _ Hfile Hscan).
  exists stop, ms, (tick n (logged [LogAnalyzing src] st)).
  destruct (Z.gtb_spec ms 3000) as [Hgt | Hle].
  - destruct (cutOneVideoFile_run w cfg src ms (tick n (logged [LogAnalyzing src] st)))
      as (r & tail & ->).
    eexists r, _, _. split; [done |]. split; [reflexivity |]. simpl.
    split; [by rewrite <- app_assoc |]. split; [done |]. split; [| split].
    + split; [done |]. intros _. eexists _, _.
      apply list_elem_of_further, list_elem_of_here.
    + intros _. by exists tail.
    + lia.
  - eexists (Some false), _, [LogPass]. split; [done |]. split; [reflexivity |]. simpl.
    split; [by rewrite <- app_assoc |]. split; [done |]. split; [| split].
    + split; [| lia]. intros (sec & dest & Hin).
      apply list_elem_of_singleton in Hin. discriminate.
    + lia.
    + done.
Qed.

Lemma cut_iff_beyond_3000_witness :
  ∃ stop ms st1 r st2 evs,
    findCutPoint_traced header_world cut_cfg {[known_hash]} "in/a.mp4"
      (logged [LogAnalyzing "in/a.mp4"] st0) = (Ok (stop, ms), st1)
    ∧ processVideoFile header_world cut_cfg {[known_hash]} "in/a.mp4" st0 = (Ok r, st2)
    ∧ log st2 = (log st0 ++ LogAnalyzing "in/a.mp4" :: evs)%list
    ∧ files st2 = files st0
    ∧ ((∃ sec dest, RunFfmpeg "in/a.mp4" sec dest ∈ evs) ↔ 3000 < ms)
    ∧ (3000 < ms →
       ∃ tail, evs = ([LogCutAt (Py.div1000 ms);
                      RunFfmpeg "in/a.mp4" (Py.div1000 ms)
                        (cut_dest header_world cut_cfg "in/a.mp4")] ++ tail)%list)
    ∧ (ms ≤ 3000 → evs = [LogPass] ∧ r = Some false).
Proof.
  apply (cut_iff_beyond_3000 header_world cut_cfg {[known_hash]} "in/a.mp4" st0).
  reflexivity.
Defined.

Lemma isfile_media w src v st : media w !! src = Some v → fst (isfile w src st) = Ok true.
Proof.
  intros Hv. unfold isfile. simpl. rewrite Hv.
  rewrite (bool_decide_eq_true_2 (is_Some (Some v))) by eauto. by rewrite orb_true_r.
Qed.

(** C1: the database is [{known}], the stream shows [known] at 1, 2, 3 and
    4 seconds and a fingerprint at distance 10 from it at 5 seconds, the
    threshold is the default 7: the scan stops with [FrameNovel] at 5000 ms
    and the file is cut at 5 seconds. *)
Theorem scenario_B (w : World) (cfg : Configs) (src : string) (v : Video)
    (known novel : Z) (st : State) :
  max_hamming_distance cfg = 7 →
  max_header_length_ms cfg = 5 * 60 * 1000 →
  sigint_at w = None →
  media w !! src = Some v →
  isOpened v = true →
  increasing (frames v) →
  mkFrame 1000 known ∈ frames v →
  mkFrame 2000 known ∈ frames v →
  mkFrame 3000 known ∈ frames v →
  mkFrame 4000 known ∈ frames v →
  mkFrame 5000 novel ∈ frames v →
  hamming known novel = 10 →
  ∃ k r tail,
    findCutPoint_traced w cfg {[known]} src (logged [LogAnalyzing src] st)
    = (Ok (FrameNovel, 5000), tick k (logged [LogAnalyzing src] st))
    ∧ processVideoFile w cfg {[known]} src st
      = (Ok r, logged ([LogAnalyzing src; LogCutAt 5;
                        RunFfmpeg src 5 (cut_dest w cfg src)] ++ tail) (tick k st)).
Proof.
  intros Hthr Hwin Hw Hv Hopen Hinc H1 H2 H3 H4 H5 Hdist.
  assert (isSimilar cfg {[known]} known = true) as Hknown.
  { apply isSimilar_true. left. set_solver. }
  assert (isSimilar cfg {[known]} novel = false) as Hnovel.
  { apply isSimilar_false. split.
    - intros ->%elem_of_singleton. rewrite hamming_self in Hdist. lia.
    - intros h ->%elem_of_singleton. lia. }
  destruct (scan_known_then_novel w cfg {[known]} (eof_ms v) known novel (frames v)
              4%nat 1000 (logged [LogAnalyzing src] st) Hw Hknown Hnovel Hinc)
    as (k & Hscan).
  { intros i Hi. destruct i as [|[|[|[|i]]]]; simpl; [done.. | lia]. }
  { done. }
  { rewrite Hwin. simpl. lia. }
  assert (findCutPoint_traced w cfg {[known]} src (logged [LogAnalyzing src] st)
          = (Ok (FrameNovel, 5000), tick k (logged [LogAnalyzing src] st))) as Hfind.
  { unfold findCutPoint_traced, VideoCapture. by rewrite Hv, Hopen, Hscan. }
  destruct (cutOneVideoFile_run w cfg src 5000 (tick k (logged [LogAnalyzing src] st)))
    as (r & tail & Hcut).
  exists k, r, tail. split; [exact Hfind |].
  rewrite (processVideoFile_file _ _ _ _ _ _ _ _ (isfile_media _ _ _ _ Hv) Hfind).
  change (5000 >? 3000) with true. cbv iota. rewrite Hcut.
  change (Py.div1000 5000) with 5%Q.
  unfold logged, tick. simpl. by rewrite <- app_assoc.
Qed.

Lemma scenario_B_witness :
  hamming known_hash novel_hash = 10
  ∧ ∃ k r tail,
    findCutPoint_traced header_world cut_cfg {[known_hash]} "in/a.mp4"
      (logged [LogAnalyzing "in/a.mp4"] st0)
    = (Ok (FrameNovel, 5000), tick k (logged [LogAnalyzing "in/a.mp4"] st0))
    ∧ processVideoFile header_world cut_cfg {[known_hash]} "in/a.mp4" st0
      = (Ok r, logged ([LogAnalyzing "in/a.mp4"; LogCutAt 5;
                        RunFfmpeg "in/a.mp4" 5
                          (cut_dest header_world cut_cfg "in/a.mp4")] ++ tail)
                 (tick k st0)).
Proof.
  split; [reflexivity |].
  apply (scenario_B header_world cut_cfg "in/a.mp4" (mkVideo true header_stream 5500)
           known_hash novel_hash st0).
  - reflexivity.
  - reflexivity.
  - reflexivity.
  - reflexivity.
  - reflexivity.
  - unfold increasing, header_stream. simpl. repeat constructor.
  - simpl. unfold header_stream. do 2 apply list_elem_of_further. apply list_elem_of_here.
  - simpl. unfold header_stream. do 4 apply list_elem_of_further. apply list_elem_of_here.
  - simpl. unfold header_stream. do 6 apply list_elem_of_further. apply list_elem_of_here.
  - simpl. unfold header_stream. do 8 apply list_elem_of_further. apply list_elem_of_here.
  - simpl. unfold header_stream. do 10 apply list_elem_of_further. apply list_elem_of_here.
  - reflexivity.
Defined.

Example scenario_B_run :
  processVideoFile header_world cut_cfg {[known_hash]} "in/a.mp4" st0
  = (Ok (Some true),
     mkState 11 ∅
       [LogAnalyzing "in/a.mp4"; LogCutAt 5; RunFfmpeg "in/a.mp4" 5 "out/a.mp4";
        LogMove "out/a.mp4" "in/a.mp4"; Move "out/a.mp4" "in/a.mp4"; LogSuccess]).
Proof. vm_compute. reflexivity. Qed.

(** ** Cancellation *)

Lemma isCancelled_set w st k :
  sigint_at w = Some k → (k ≤ polls st)%nat → isCancelled w st = (Ok true, tick 1 st).
Proof.
  intros Hw Hk. unfold isCancelled. rewrite Hw.
  by rewrite (proj2 (Nat.leb_le _ _) Hk).
Qed.

Lemma isCancelled_clear w st k :
  sigint_at w = Some k → (polls st < k)%nat → isCancelled w st = (Ok false, tick 1 st).
Proof.
  intros Hw Hk. unfold isCancelled. rewrite Hw.
  by rewrite (proj2 (Nat.leb_gt _ _) Hk).
Qed.

Lemma tick_0 st : tick 0 st = st.
Proof. by destruct st. Qed.

Lemma scan_eq w cfg hashes eof fs t st :
  scan w cfg hashes eof fs t st
  = match isCancelled w st with
    | (Ok true, st1) => (Ok (Cancelled, -1), st1)
    | (Ok false, st1) =>
        match fs with
        | [] => (Ok (StreamEnded, eof), st1)
        | f :: fs' =>
            if frame_ms f >? max_header_length_ms cfg
            then (Ok (WindowExceeded, frame_ms f), st1)
            else if frame_ms f >=? t then
              if isSimilar cfg hashes (frame_hash f)
              then scan w cfg hashes eof fs' (t + 1000) st1
              else (Ok (FrameNovel, frame_ms f), st1)
            else scan w cfg hashes eof fs' t st1
        end
    | (Raise e, st1) => (Raise e, st1)
    end.
Proof.
  destruct fs as [|f fs']; cbn [scan]; unfold bind;
    destruct (isCancelled w st) as [[[|]|e] st1]; try reflexivity.
  destruct (frame_ms f >? _); [reflexivity |].
  destruct (frame_ms f >=? _); [destruct (isSimilar _ _ _) |]; reflexivity.
Qed.

(** An interrupt that arrives before the last poll of the scan it would
    otherwise make ends the scan with [Cancelled] and -1. *)
Lemma scan_interrupted w cfg hashes eof k fs : ∀ t st,
  sigint_at w = Some k →
  (k < polls (snd (scan (calm w) cfg hashes eof fs t st)))%nat →
  ∃ n, scan w cfg hashes eof fs t st = (Ok (Cancelled, -1), tick n st)
       ∧ (k < polls (tick n st))%nat.
Proof.
  intros t st Hw. revert t st.
  induction fs as [|f fs IH]; intros t st Hk;
    rewrite (scan_eq w); rewrite (scan_eq (calm w)) in Hk;
    rewrite (isCancelled_calm (calm w) st eq_refl) in Hk;
    (destruct (Nat.le_gt_cases k (polls st)) as [Hset | Hclear];
     [rewrite (isCancelled_set _ _ _ Hw Hset); exists 1%nat;
      split; [done | simpl; lia]
     | rewrite (isCancelled_clear _ _ _ Hw Hclear)]).
  - simpl in Hk. lia.
  - destruct (_ >? _); [simpl in Hk; lia |].
    destruct (_ >=? _); [destruct (isSimilar _ _ _); [| simpl in Hk; lia] |].
    + destruct (IH _ _ Hk) as (n & -> & Hn).
      exists (n + 1)%nat. by rewrite <- tick_tick.
    + destruct (IH _ _ Hk) as (n & -> & Hn).
      exists (n + 1)%nat. by rewrite <- tick_tick.
Qed.

(** Once the flag is set no file is started. *)
Lemma cutFiles_cancelled w cfg hashes k srcs tally st :
  sigint_at w = Some k → (k ≤ polls st)%nat →
  ∃ n, cutFiles w cfg hashes srcs tally st = (Ok tally, tick n st).
Proof.
  intros Hw Hk. destruct srcs as [|src rest]; simpl.
  - exists 0%nat. by rewrite tick_0.
  - unfold bind. rewrite (isCancelled_set _ _ _ Hw Hk). by exists 1%nat.
Qed.

Lemma cutSources_cancelled w cfg hashes k srcs tally st :
  sigint_at w = Some k → (k ≤ polls st)%nat →
  ∃ n, cutSources w cfg hashes srcs tally st = (Ok tally, tick n st).
Proof.
  intros Hw Hk. destruct srcs as [|src rest]; simpl.
  - exists 0%nat. by rewrite tick_0.
  - unfold bind. rewrite (isCancelled_set _ _ _ Hw Hk). by exists 1%nat.
Qed.

(** C4 as the code has it: an interrupt during the scan of [src] makes the
    scan return -1; the file is not cut and is counted with the skipped
    ones; neither the other files of the source nor the other sources are
    started. *)
Theorem interrupted_scan_is_skipped (w : World) (cfg : Configs) (hashes : gset Z)
    (src : string) (rest more : list string) (success fail : Z) (st : State) (k : nat) :
  sigint_at w = Some k →
  (polls st < k)%nat →
  fst (isfile w src st) = Ok true →
  (k < polls (snd (findCutPoint_traced (calm w) cfg hashes src
                     (logged [LogAnalyzing src] (tick 1 st)))))%nat →
  ∃ n m,
    findCutPoint_traced w cfg hashes src (logged [LogAnalyzing src] (tick 1 st))
    = (Ok (Cancelled, -1), tick n (logged [LogAnalyzing src] (tick 1 st)))
    ∧ (tally <- cutFiles w cfg hashes (src :: rest) (success, fail) ;;
       cutSources w cfg hashes more tally) st
      = (Ok (success, fail + 1), logged [LogAnalyzing src; LogPass] (tick m st)).
Proof.
  intros Hw Hclear Hfile Hmid.
  assert (∃ n, findCutPoint_traced w cfg hashes src (logged [LogAnalyzing src] (tick 1 st))
               = (Ok (Cancelled, -1), tick n (logged [LogAnalyzing src] (tick 1 st)))
               ∧ (k < polls (tick n (logged [LogAnalyzing src] (tick 1 st))))%nat)
    as (n & Hscan & Hn).
  { unfold findCutPoint_traced in *. change (VideoCapture (calm w) src) with (VideoCapture w src) in Hmid.
    destruct (isOpened (VideoCapture w src)).
    - by apply scan_interrupted.
    - unfold ret in Hmid. simpl in Hmid. lia. }
  set (st2 := logged [LogPass] (tick n (logged [LogAnalyzing src] (tick 1 st)))).
  destruct (cutFiles_cancelled w cfg hashes k rest (success, fail + 1) st2 Hw)
    as (n1 & Hrest); [simpl in *; lia |].
  destruct (cutSources_cancelled w cfg hashes k more (success, fail + 1) (tick n1 st2) Hw)
    as (n2 & Hmore); [simpl in *; lia |].
  exists n, (n2 + n1 + n + 1)%nat. split; [exact Hscan |].
  unfold bind at 1. simpl. unfold bind at 1.
  rewrite (isCancelled_clear _ _ _ Hw Hclear). unfold bind at 1.
  rewrite (processVideoFile_file w cfg hashes src (tick 1 st) Cancelled (-1) _ Hfile Hscan).
  change (-1 >? 3000) with false. cbv iota. fold st2. simpl truthy. cbv iota.
  rewrite Hrest, Hmore. f_equal.
  unfold st2, logged, tick. simpl. f_equal; [lia | by rewrite <- app_assoc].
Qed.

Lemma interrupted_scan_is_skipped_witness :
  ∃ n m,
    findCutPoint_traced interrupted_world cut_cfg {[known_hash]} "in/a.mp4"
      (logged [LogAnalyzing "in/a.mp4"] (tick 1 (tick 1 st_db)))
    = (Ok (Cancelled, -1),
       tick n (logged [LogAnalyzing "in/a.mp4"] (tick 1 (tick 1 st_db))))
    ∧ (tally <- cutFiles interrupted_world cut_cfg {[known_hash]}
                  ["in/a.mp4"; "in/b.mp4"] (0, 0) ;;
       cutSources interrupted_world cut_cfg {[known_hash]} ["more"] tally) (tick 1 st_db)
      = (Ok (0, 0 + 1), logged [LogAnalyzing "in/a.mp4"; LogPass] (tick m (tick 1 st_db))).
Proof.
  apply (interrupted_scan_is_skipped interrupted_world cut_cfg {[known_hash]} "in/a.mp4"
           ["in/b.mp4"] ["more"] 0 0 (tick 1 st_db) 4%nat).
  - reflexivity.
  - simpl. lia.
  - reflexivity.
  - vm_compute. lia.
Defined.

(** C4 as stated fails: the only file of the run is interrupted in the
    middle of its scan, and the summary counts it: total 1, success 0,
    skip 1. *)
Lemma interrupted_file_is_counted :
  fst (findCutPoint_traced interrupted_world cut_cfg {[known_hash]} "in/a.mp4"
         (mkState 2 (files st_db) [LogAnalyzing "in/a.mp4"]))
  = Ok (Cancelled, -1)
  ∧ doCutVideoFiles interrupted_world cut_cfg st_db
    = (Ok 0, mkState 5 (files st_db)
               [LogAnalyzing "in/a.mp4"; LogPass; LogSummary 1 0 1]).
Proof. split; vm_compute; reflexivity. Qed.

(** ** Building the database *)

Lemma loadHashDB_state w cfg st : snd (loadHashDB w cfg st) = st.
Proof.
  unfold loadHashDB, bind, isfile, ret. simpl.
  destruct (_ || _); simpl; [| done]. by destruct (files st !! db cfg).
Qed.

Lemma getAllVideoFiles_state w cfg path st :
  ∃ l, getAllVideoFiles w cfg path st = (Ok l, st).
Proof.
  unfold getAllVideoFiles, bind, isfile, ret. simpl. destruct (_ || _); eauto.
Qed.

Lemma fed_by_refl w bound db : fed_by w bound db db.
Proof. split; [done | by left]. Qed.

Lemma fed_by_trans w bound db1 db2 db3 :
  fed_by w bound db1 db2 → fed_by w bound db2 db3 → fed_by w bound db1 db3.
Proof.
  intros [Hsub1 H1] [Hsub2 H2]. split; [set_solver |].
  intros h Hh. destruct (H2 h Hh) as [Hin | ?]; [by apply H1 | by right].
Qed.

Lemma addFrames_elem max fs : ∀ db h,
  0 < max →
  h ∈ addFrames max fs db →
  h ∈ db ∨ ∃ f, f ∈ fs ∧ frame_ms f ≤ max ∧ frame_hash f = h.
Proof.
  induction fs as [|f fs IH]; intros db h Hmax; simpl; [by left |].
  destruct (Z.gtb_spec max 0); [| lia]. simpl.
  destruct (Z.gtb_spec (frame_ms f) max) as [Hover | Hin]; [by left |].
  intros Hh. destruct (IH _ _ Hmax Hh) as [Hdb | (g & Hg & Hms & Hhash)].
  - apply elem_of_union in Hdb as [->%elem_of_singleton | Hdb]; [| by left].
    right. exists f. split; [apply list_elem_of_here | done].
  - right. exists g. split; [by apply list_elem_of_further | done].
Qed.

Lemma addFrames_grows max fs : ∀ db, db ⊆ addFrames max fs db.
Proof.
  induction fs as [|f fs IH]; intros db; simpl; [done |].
  destruct (_ && _); [done |]. specialize (IH ({[frame_hash f]} ∪ db)). set_solver.
Qed.

Lemma appendSample_run w cfg db src max st :
  0 < max →
  ∃ db', appendSampleVideoToHashDB w cfg db src max st = (Ok db', st)
         ∧ fed_by w max db db'.
Proof.
  intros Hmax. unfold appendSampleVideoToHashDB, bind, isfile, ret. simpl.
  destruct (_ || _); simpl; [| eauto using fed_by_refl].
  unfold VideoCapture. destruct (media w !! src) as [v|] eqn:Hv; simpl;
    [| eauto using fed_by_refl].
  destruct (isOpened v); [| eauto using fed_by_refl].
  eexists. split; [reflexivity |]. split; [apply addFrames_grows |].
  intros h Hh. destruct (addFrames_elem _ _ _ _ Hmax Hh) as [? | (f & Hf & Hms & Hhash)];
    [by left | right]. by exists src, v, f.
Qed.

Lemma appendFiles_run w cfg srcs max : ∀ db st,
  0 < max →
  ∃ db', appendFiles w cfg srcs max db st = (Ok db', st) ∧ fed_by w max db db'.
Proof.
  induction srcs as [|src rest IH]; intros db st Hmax; simpl.
  - exists db. split; [done | apply fed_by_refl].
  - unfold bind. destruct (appendSample_run w cfg db src max st Hmax) as (db1 & -> & H1).
    destruct (IH db1 st Hmax) as (db' & -> & H2).
    exists db'. split; [done | by eapply fed_by_trans].
Qed.

Lemma appendSources_run w cfg srcs max : ∀ db st,
  0 < max →
  ∃ db', appendSources w cfg srcs max db st = (Ok db', st) ∧ fed_by w max db db'.
Proof.
  induction srcs as [|source more IH]; intros db st Hmax; simpl.
  - exists db. split; [done | apply fed_by_refl].
  - unfold bind. destruct (getAllVideoFiles_state w cfg source st) as (l & ->).
    destruct (appendFiles_run w cfg l max db st Hmax) as (db1 & -> & H1).
    destruct (IH db1 st Hmax) as (db' & -> & H2).
    exists db'. split; [done | by eapply fed_by_trans].
Qed.

(** C7: append mode with a bound of 5 seconds writes a database that holds,
    besides what was loaded, only fingerprints of frames at no more than
    5000 ms. *)
Theorem append_bounded (w : World) (cfg : Configs) (st : State) (db0 : gset Z) :
  op cfg = AppendToHashDB →
  end_ cfg = 5 →
  fst (loadHashDB w cfg st) = Ok db0 →
  ∃ st' db',
    doAppendHash w cfg st = (Ok 0, st')
    ∧ fst (loadHashDB w cfg st') = Ok db'
    ∧ db0 ⊆ db'
    ∧ ∀ h, h ∈ db' →
        h ∈ db0 ∨ ∃ src v f, media w !! src = Some v ∧ f ∈ frames v
                             ∧ frame_ms f ≤ 5000 ∧ frame_hash f = h.
Proof.
  intros Hop Hend Hload.
  assert (loadHashDB w cfg st = (Ok db0, st)) as Hl.
  { pose proof (loadHashDB_state w cfg st) as Hst.
    destruct (loadHashDB w cfg st) as [r st1]. simpl in *. by subst. }
  destruct (appendSources_run w cfg (sources cfg) 5000 db0 st) as (db' & Hadd & Hsub & Hfed);
    [lia |].
  destruct (writeHashDB_run cfg db' st) as (st' & Hwrite & Hfile & _).
  exists st', db'. split.
  - unfold doAppendHash. rewrite Hop, Hend.
    change (isAppend AppendToHashDB && (5 <? 1)) with false.
    change (isAppend AppendToHashDB) with true. cbv iota.
    change (5 * 1000) with 5000. unfold bind. by rewrite Hl, Hadd, Hwrite.
  - rewrite (loadHashDB_db_text _ _ _ _ Hfile). simpl.
    split; [f_equal; apply list_to_set_elements_L | done].
Qed.

Lemma append_bounded_witness :
  ∃ st' db',
    doAppendHash sample_world append_cfg st0 = (Ok 0, st')
    ∧ fst (loadHashDB sample_world append_cfg st') = Ok db'
    ∧ ∅ ⊆ db'
    ∧ ∀ h, h ∈ db' →
        h ∈ (∅ : gset Z)
        ∨ ∃ src v f, media sample_world !! src = Some v ∧ f ∈ frames v
                     ∧ frame_ms f ≤ 5000 ∧ frame_hash f = h.
Proof.
  apply (append_bounded sample_world append_cfg st0 ∅); reflexivity.
Defined.

Example append_five_seconds :
  fst (loadHashDB sample_world append_cfg (snd (doAppendHash sample_world append_cfg st0)))
  = Ok {[100; 101; 102; 103; 104; 105]}.
Proof. vm_compute. reflexivity. Qed.

(** A stream that ends before its first second is never sampled: the scan
    returns the position reported at the end of the stream. *)
Example short_stream_ends :
  fst (findCutPoint_traced
         (world_of {["in/a.mp4" := mkVideo true [mkFrame 0 11; mkFrame 400 12; mkFrame 800 13] 800]} None)
         Configs_init ∅ "in/a.mp4" st0)
  = Ok (StreamEnded, 800).
Proof. vm_compute. reflexivity. Qed.

(** * Further properties *)

(** ** Hamming distance *)

Lemma count_nonneg c s : 0 ≤ Py.count c s.
Proof. induction s as [|a s IH]; simpl; [done |]. destruct (Ascii.eqb a c); lia. Qed.

Lemma count_bin_pos p : ∀ acc,
  1 + Py.count "1" acc ≤ Py.count "1" (Py.bin_pos p acc)
  ∧ Py.count "1" (Py.bin_pos p acc) ≤ Z.pos (Pos.size p) + Py.count "1" acc.
Proof.
  induction p as [p IH | p IH |]; intros acc; simpl Py.bin_pos; simpl Pos.size.
  - specialize (IH (String "1" acc)). simpl Py.count in *. lia.
  - specialize (IH (String "0" acc)). simpl Py.count in *. lia.
  - simpl. lia.
Qed.

Lemma count_bin z :
  0 ≤ Py.count "1" (Py.bin z) ∧ (Py.count "1" (Py.bin z) = 0 ↔ z = 0).
Proof.
  split; [apply count_nonneg |].
  destruct z as [|p|p].
  - done.
  - change (Py.bin (Z.pos p)) with (String "0" (String "b" (Py.bin_pos p ""))).
    pose proof (count_bin_pos p "") as [Hlo _]. simpl Py.count in *.
    split; [lia | discriminate].
  - change (Py.bin (Z.neg p)) with (String "-" (String "0" (String "b" (Py.bin_pos p "")))).
    pose proof (count_bin_pos p "") as [Hlo _]. simpl Py.count in *.
    split; [lia | discriminate].
Qed.

Lemma hamming_zero a b : 0 ≤ hamming a b ∧ (hamming a b = 0 ↔ a = b).
Proof.
  unfold hamming. destruct (count_bin (Z.lxor a b)) as [Hpos Hzero].
  split; [done |]. rewrite Hzero. split; [apply Z.lxor_eq | intros ->; apply Z.lxor_nilpotent].
Qed.

(** X1: the Hamming distance is symmetric, never negative, and zero exactly
    between equal fingerprints. *)
Theorem hamming_metric (a b : Z) :
  hamming a b = hamming b a ∧ 0 ≤ hamming a b ∧ (hamming a b = 0 ↔ a = b).
Proof.
  split; [apply hamming_sym |]. apply hamming_zero.
Qed.

(** X2: two fingerprints of 64 bits are at distance 64 at most. *)
Theorem hamming_64 (a b : Z) :
  0 ≤ a < 2 ^ 64 → 0 ≤ b < 2 ^ 64 → hamming a b ≤ 64.
Proof.
  intros Ha Hb. unfold hamming.
  assert (0 ≤ Z.lxor a b) as Hnn by (apply Z.lxor_nonneg; lia).
  destruct (Z.lxor a b) as [|p|p] eqn:Hx; [done | | lia].
  change (Py.bin (Z.pos p)) with (String "0" (String "b" (Py.bin_pos p ""))).
  pose proof (count_bin_pos p "") as [_ Hhi]. simpl Py.count in *.
  assert (∀ x, 0 ≤ x < 2 ^ 64 → Z.log2 x < 64) as Hbits.
  { intros x Hx'. destruct (Z.eq_dec x 0) as [-> | ?]; [done |].
    apply Z.log2_lt_pow2; lia. }
  assert (Z.log2 (Z.pos p) < 64) as Hlog.
  { rewrite <- Hx. eapply Z.le_lt_trans; [apply Z.log2_lxor; lia |].
    apply Z.max_lub_lt; by apply Hbits. }
  assert (Z.pos (Pos.size p) = Z.succ (Z.log2 (Z.pos p))) as Hsize.
  { destruct p; simpl; lia. }
  lia.
Qed.

Lemma hamming_64_witness :
  hamming 0xFFFFFFFFFFFFFFFF 0 ≤ 64 ∧ hamming 0xFFFFFFFFFFFFFFFF 0 = 64.
Proof.
  split; [| reflexivity].
  apply (hamming_64 0xFFFFFFFFFFFFFFFF 0); lia.
Defined.

(** X3: with a threshold of 1 or less the approximate match is the exact
    one: [isSimilar] is membership. *)
Theorem isSimilar_exact (t : Z) (cfg : Configs) (hashes : gset Z) (hash : Z) :
  t ≤ 1 →
  isSimilar (with_threshold t cfg) hashes hash = true ↔ hash ∈ hashes.
Proof.
  intros Ht. rewrite isSimilar_true. simpl. split; [| by left].
  intros [Hin | (h & Hin & Hlt)]; [done |].
  destruct (hamming_zero h hash) as (Hnn & Hzero).
  assert (h = hash) as <- by (apply Hzero; lia). done.
Qed.

Lemma isSimilar_exact_witness :
  isSimilar (with_threshold 1 Configs_init) {[known_hash]} (Z.lxor known_hash 1) = true
  ↔ Z.lxor known_hash 1 ∈ ({[known_hash]} : gset Z).
Proof.
  apply (isSimilar_exact 1 Configs_init {[known_hash]} (Z.lxor known_hash 1)). lia.
Defined.

(** ** Loading the database *)

Lemma addLines_parsed lines : ∀ r : gset Z,
  Forall (λ l, is_Some (Py.int l)) lines →
  ∃ d, addLines lines r = Ok d
       ∧ ∀ z, z ∈ d ↔ z ∈ r ∨ ∃ l, l ∈ lines ∧ Py.int l = Some z.
Proof.
  induction lines as [|l lines IH]; intros r Hall; simpl.
  - exists r. split; [done |]. intros z. split; [by left |].
    intros [? | (l & Hl & _)]; [done | by apply elem_of_nil in Hl].
  - apply Forall_cons in Hall as [[z0 Hz0] Hall]. rewrite Hz0.
    destruct (IH ({[z0]} ∪ r) Hall) as (d & -> & Hd).
    exists d. split; [done |]. intros z. rewrite Hd, elem_of_union, elem_of_singleton.
    split.
    + intros [[-> | ?] | (l' & Hl' & Hz)]; [right | by left | right].
      * exists l. split; [apply list_elem_of_here | done].
      * exists l'. split; [by apply list_elem_of_further | done].
    + intros [? | (l' & Hl' & Hz)]; [by left; right |].
      apply elem_of_cons in Hl' as [-> | Hl'].
      * left; left. congruence.
      * right. by exists l'.
Qed.

Lemma addLines_unparsed lines : ∀ r : gset Z,
  Exists (λ l, Py.int l = None) lines → addLines lines r = Raise ValueError.
Proof.
  induction lines as [|l lines IH]; intros r Hex; simpl.
  - by apply Exists_nil in Hex.
  - destruct (Py.int l) as [z|] eqn:Hl; [| done].
    apply Exists_cons in Hex as [? | Hex]; [congruence | by apply IH].
Qed.

(** X4: [loadHashDB] gives the empty set when the database is no file;
    on a text file whose lines all read as integers it gives exactly the
    integers read; a single line that does not (a blank one, say) makes it
    raise [ValueError].  It never changes the state. *)
Theorem loadHashDB_outcome (w : World) (cfg : Configs) (st : State) :
  (fst (isfile w (db cfg) st) = Ok false → loadHashDB w cfg st = (Ok ∅, st))
  ∧ (∀ text, files st !! db cfg = Some text →
       (Forall (λ l, is_Some (Py.int l)) (Py.readlines (Py.universal_newlines text)) →
        ∃ d, loadHashDB w cfg st = (Ok d, st)
             ∧ ∀ z, z ∈ d ↔ ∃ l, l ∈ Py.readlines (Py.universal_newlines text)
                                 ∧ Py.int l = Some z)
       ∧ (Exists (λ l, Py.int l = None) (Py.readlines (Py.universal_newlines text)) →
          loadHashDB w cfg st = (Raise ValueError, st))).
Proof.
  split.
  - unfold loadHashDB, bind, isfile, ret. simpl. by intros [= ->].
  - intros text Hfile.
    assert (loadHashDB w cfg st
            = (addLines (Py.readlines (Py.universal_newlines text)) ∅, st)) as ->.
    { unfold loadHashDB, bind, isfile. rewrite Hfile. simpl. by rewrite Hfile. }
    split.
    + intros Hall. destruct (addLines_parsed _ ∅ Hall) as (d & -> & Hd).
      exists d. split; [done |]. intros z. rewrite Hd. set_solver.
    + intros Hex. by rewrite addLines_unparsed.
Qed.

Example blank_line_in_database :
  fst (loadHashDB no_world cut_cfg (mkState 0 {["clips.db" := "5

7
"]} []))
  = Raise ValueError.
Proof. vm_compute. reflexivity. Qed.

(** ** One file, whatever happens *)

Lemma logged_tick_logged e1 e2 n st :
  logged e2 (tick n (logged e1 st)) = logged (e1 ++ e2) (tick n st).
Proof. unfold logged, tick. simpl. by rewrite app_assoc. Qed.

Lemma tick_logged_tick n m evs st :
  tick n (logged evs (tick m st)) = logged evs (tick (n + m) st).
Proof. unfold logged, tick. simpl. f_equal. lia. Qed.

Lemma logged_logged e1 e2 st : logged e2 (logged e1 st) = logged (e1 ++ e2) st.
Proof. unfold logged. simpl. by rewrite app_assoc. Qed.

Lemma isfile_run w p st : ∃ b, isfile w p st = (Ok b, st).
Proof. unfold isfile. eauto. Qed.

Lemma isfile_files w p st1 st2 :
  files st1 = files st2 → fst (isfile w p st1) = fst (isfile w p st2).
Proof. intros Hf. unfold isfile. simpl. by rewrite Hf. Qed.

Lemma processVideoFile_total w cfg hashes src st :
  ∃ r n evs, processVideoFile w cfg hashes src st = (Ok r, logged evs (tick n st)).
Proof.
  destruct (isfile_run w src st) as ([|] & Hfile).
  - destruct (findCutPoint_traced_total w cfg hashes src (logged [LogAnalyzing src] st))
      as ([stop ms] & n & Hscan).
    rewrite (processVideoFile_file w cfg hashes src st stop ms _
               (f_equal fst Hfile) Hscan).
    destruct (ms >? 3000).
    + destruct (cutOneVideoFile_run w cfg src ms (tick n (logged [LogAnalyzing src] st)))
        as (r & tail & ->).
      exists r, n. eexists. by rewrite logged_tick_logged.
    + exists (Some false), n. eexists. by rewrite logged_tick_logged.
  - exists None, 0%nat, [LogNotAFile src].
    unfold processVideoFile, bind. rewrite Hfile. simpl. by rewrite tick_0.
Qed.

(** X5: [processVideoFile] always returns: what [ffmpeg] or the move raise
    is caught.  It changes no text file (the log file apart) and only adds
    to the log. *)
Theorem processVideoFile_returns (w : World) (cfg : Configs) (hashes : gset Z)
    (src : string) (st : State) :
  ∃ r st',
    processVideoFile w cfg hashes src st = (Ok r, st')
    ∧ files st' = files st
    ∧ (polls st ≤ polls st')%nat
    ∧ ∃ evs, log st' = (log st ++ evs)%list.
Proof.
  destruct (processVideoFile_total w cfg hashes src st) as (r & n & evs & ->).
  exists r, (logged evs (tick n st)). split; [done |]. split; [done |].
  split; [simpl; lia | by exists evs].
Qed.

(** X6: a source that is no file, or a file the decoder does not open, is
    passed over: no scan poll, no [ffmpeg], and the result counts as a
    skip. *)
Theorem unreadable_source_is_skipped (w : World) (cfg : Configs) (hashes : gset Z)
    (src : string) (st : State) :
  fst (isfile w src st) = Ok false ∨ isOpened (VideoCapture w src) = false →
  ∃ r evs,
    processVideoFile w cfg hashes src st = (Ok r, logged evs st)
    ∧ truthy r = false
    ∧ (evs = [LogNotAFile src] ∨ evs = [LogAnalyzing src; LogPass]).
Proof.
  intros Hbad. destruct (isfile_run w src st) as ([|] & Hfile).
  - destruct Hbad as [Hno | Hclosed]; [rewrite Hfile in Hno; discriminate |].
    assert (findCutPoint_traced w cfg hashes src (logged [LogAnalyzing src] st)
            = (Ok (NotOpened, 0), logged [LogAnalyzing src] st)) as Hscan.
    { unfold findCutPoint_traced. by rewrite Hclosed. }
    rewrite (processVideoFile_file w cfg hashes src st _ _ _ (f_equal fst Hfile) Hscan).
    exists (Some false), [LogAnalyzing src; LogPass]. simpl.
    split; [by rewrite logged_logged | auto].
  - exists None, [LogNotAFile src].
    unfold processVideoFile, bind. rewrite Hfile. simpl. auto.
Qed.

Lemma unreadable_source_is_skipped_witness :
  ∃ r evs,
    processVideoFile header_world cut_cfg {[known_hash]} "clips.db" st_db
    = (Ok r, logged evs st_db)
    ∧ truthy r = false
    ∧ (evs = [LogNotAFile "clips.db"] ∨ evs = [LogAnalyzing "clips.db"; LogPass]).
Proof.
  apply (unreadable_source_is_skipped header_world cut_cfg {[known_hash]} "clips.db" st_db).
  right. reflexivity.
Defined.

(** ** What a cut does *)

(** X7: [cutOneVideoFile] reports success exactly when [ffmpeg] returned 0
    and the move, if one was asked for, went through; the original is
    replaced only after a return code of 0 and only with the move option;
    after a non-zero return code the result is [None] and nothing follows
    the failure line. *)
Theorem cutOneVideoFile_outcome (w : World) (cfg : Configs) (src : string)
    (ms : Z) (st : State) :
  let dest := cut_dest w cfg src in
  let sec := Py.div1000 ms in
  ∃ r tail,
    cutOneVideoFile w cfg src ms st
    = (r, logged ([LogCutAt sec; RunFfmpeg src sec dest] ++ tail)%list st)
    ∧ (r = Ok (Some true) ↔
       ffmpeg w src sec dest = Ok 0
       ∧ (move_file_after_cut cfg = true → shutil_move w dest src = Ok tt))
    ∧ (Move dest src ∈ tail ↔
       ffmpeg w src sec dest = Ok 0 ∧ move_file_after_cut cfg = true)
    ∧ (∀ rc, ffmpeg w src sec dest = Ok rc → rc ≠ 0 →
       r = Ok None ∧ tail = [LogFailed]).
Proof.
  intros dest sec. unfold cutOneVideoFile. fold dest. fold sec.
  destruct (ffmpeg w src sec dest) as [rc | e] eqn:Hrun;
    [destruct (rc =? 0) eqn:Hrc;
     [apply Z.eqb_eq in Hrc as ->;
      destruct (move_file_after_cut cfg) eqn:Hmv;
      [destruct (shutil_move w dest src) as [[] | e] eqn:Hmove |]
     | apply Z.eqb_neq in Hrc] |];
    repeat (progress (unfold bind, emit, lift, ret, logged; simpl;
                      rewrite ?Hrun, ?Hmv, ?Hmove; simpl));
    try (destruct (rc =? 0) eqn:Hrc'; [apply Z.eqb_eq in Hrc'; done |]; simpl).
  - exists (Ok (Some true)), [LogMove dest src; Move dest src; LogSuccess].
    split; [by rewrite <- !app_assoc |]. split; [naive_solver |].
    split; [| by intros rc [= <-] ?]. split; [done |]. intros _.
    apply list_elem_of_further, list_elem_of_here.
  - exists (Raise e), [LogMove dest src; Move dest src].
    split; [by rewrite <- !app_assoc |]. split; [naive_solver |].
    split; [| by intros rc [= <-] ?]. split; [done |]. intros _.
    apply list_elem_of_further, list_elem_of_here.
  - exists (Ok (Some true)), [LogSuccess].
    split; [by rewrite <- !app_assoc |]. split; [naive_solver |].
    split; [| by intros rc [= <-] ?]. split; [| naive_solver].
    intros Hin. apply list_elem_of_singleton in Hin. discriminate.
  - exists (Ok None), [LogFailed].
    split; [by rewrite <- !app_assoc |]. split; [naive_solver |].
    split; [| done]. split; [| naive_solver].
    intros Hin. apply list_elem_of_singleton in Hin. discriminate.
  - exists (Raise e), [].
    split; [by rewrite <- !app_assoc |]. split; [naive_solver |].
    split; [| done]. split; [| naive_solver].
    intros Hin. by apply elem_of_nil in Hin.
Qed.

(** ** The batch *)

Lemma logged_nil st : logged [] st = st.
Proof. unfold logged. rewrite app_nil_r. by destruct st. Qed.

Lemma isCancelled_run w st :
  ∃ c, isCancelled w st = (Ok c, tick 1 st) ∧ (sigint_at w = None → c = false).
Proof.
  unfold isCancelled. destruct (sigint_at w) as [k|].
  - exists (k <=? polls st)%nat. by split.
  - exists false. by split.
Qed.

Lemma getAllVideoFiles_at w cfg path st :
  ∃ l, ∀ st2, files st2 = files st → getAllVideoFiles w cfg path st2 = (Ok l, st2).
Proof.
  unfold getAllVideoFiles, bind, isfile, ret. simpl.
  destruct (bool_decide (is_Some (files st !! path))
            || bool_decide (is_Some (media w !! path))) eqn:Hf;
    eexists; intros st2 Hst; rewrite Hst, Hf; reflexivity.
Qed.

Lemma resolve_files w cfg st1 st2 srcs :
  files st1 = files st2 → resolve w cfg st1 srcs = resolve w cfg st2 srcs.
Proof.
  intros Hf. unfold resolve. induction srcs as [|s srcs IH]; simpl; [done |].
  rewrite IH. f_equal.
  destruct (getAllVideoFiles_at w cfg s st1) as (l & Hl).
  by rewrite (Hl st1 eq_refl), (Hl st2 (eq_sym Hf)).
Qed.

Lemma cutFiles_run w cfg hashes l : ∀ s f st,
  ∃ s' f' n evs,
    cutFiles w cfg hashes l (s, f) st = (Ok (s', f'), logged evs (tick n st))
    ∧ s ≤ s' ∧ f ≤ f'
    ∧ s' + f' ≤ s + f + Z.of_nat (length l)
    ∧ (sigint_at w = None → s' + f' = s + f + Z.of_nat (length l)).
Proof.
  induction l as [|src rest IH]; intros s f st.
  - exists s, f, 0%nat, []. simpl. rewrite tick_0, logged_nil. unfold ret.
    repeat split; lia.
  - cbn [cutFiles]. unfold bind at 1.
    destruct (isCancelled_run w st) as (c & -> & Hc). destruct c.
    + exists s, f, 1%nat, []. rewrite logged_nil. unfold ret.
      split; [done |]. repeat split; try lia. intros Hw. by specialize (Hc Hw).
    + unfold bind at 1.
      destruct (processVideoFile_total w cfg hashes src (tick 1 st)) as (r & n & evs & ->).
      destruct (truthy r).
      * destruct (IH (s + 1) f (logged evs (tick n (tick 1 st)))) as (s' & f' & n' & evs' & -> & ? & ? & ? & Heq).
        exists s', f', (n' + (n + 1))%nat, (evs ++ evs')%list.
        rewrite tick_tick, tick_logged_tick, logged_logged.
        split; [done |]. cbn [length]. repeat split; try lia.
        intros Hw. specialize (Heq Hw). lia.
      * destruct (IH s (f + 1) (logged evs (tick n (tick 1 st)))) as (s' & f' & n' & evs' & -> & ? & ? & ? & Heq).
        exists s', f', (n' + (n + 1))%nat, (evs ++ evs')%list.
        rewrite tick_tick, tick_logged_tick, logged_logged.
        split; [done |]. cbn [length]. repeat split; try lia.
        intros Hw. specialize (Heq Hw). lia.
Qed.

Lemma cutSources_run w cfg hashes srcs : ∀ s f st,
  ∃ s' f' n evs,
    cutSources w cfg hashes srcs (s, f) st = (Ok (s', f'), logged evs (tick n st))
    ∧ s ≤ s' ∧ f ≤ f'
    ∧ s' + f' ≤ s + f + Z.of_nat (length (resolve w cfg st srcs))
    ∧ (sigint_at w = None →
       s' + f' = s + f + Z.of_nat (length (resolve w cfg st srcs))).
Proof.
  induction srcs as [|source more IH]; intros s f st.
  - exists s, f, 0%nat, []. simpl. rewrite tick_0, logged_nil. unfold ret.
    repeat split; lia.
  - cbn [cutSources]. unfold bind at 1.
    destruct (isCancelled_run w st) as (c & -> & Hc). destruct c.
    + exists s, f, 1%nat, []. rewrite logged_nil. unfold ret.
      split; [done |]. repeat split; try lia. intros Hw. by specialize (Hc Hw).
    + unfold bind at 1.
      destruct (getAllVideoFiles_at w cfg source st) as (l & Hl).
      rewrite (Hl (tick 1 st) eq_refl). unfold bind at 1.
      destruct (cutFiles_run w cfg hashes l s f (tick 1 st))
        as (s1 & f1 & n1 & evs1 & -> & ? & ? & ? & Heq1).
      destruct (IH s1 f1 (logged evs1 (tick n1 (tick 1 st))))
        as (s' & f' & n' & evs' & -> & ? & ? & Hle & Heq).
      rewrite (resolve_files w cfg (logged evs1 (tick n1 (tick 1 st))) st more eq_refl)
        in Hle, Heq.
      exists s', f', (n' + (n1 + 1))%nat, (evs1 ++ evs')%list.
      rewrite tick_tick, tick_logged_tick, logged_logged.
      split; [done |].
      assert (resolve w cfg st (source :: more) = (l ++ resolve w cfg st more)%list) as ->.
      { unfold resolve at 1. cbn [flat_map]. by rewrite (Hl st eq_refl). }
      rewrite length_app. repeat split; try lia.
      intros Hw. specialize (Heq Hw). specialize (Heq1 Hw). lia.
Qed.

Lemma loadHashDB_pair w cfg st r :
  fst (loadHashDB w cfg st) = r → loadHashDB w cfg st = (r, st).
Proof.
  intros <-. pose proof (loadHashDB_state w cfg st) as Hst.
  destruct (loadHashDB w cfg st). simpl in *. by subst.
Qed.

Lemma doCutVideoFiles_loaded w cfg st h :
  fst (isfile w (db cfg) st) = Ok true →
  fst (loadHashDB w cfg st) = Ok h →
  doCutVideoFiles w cfg st
  = match cutSources w cfg h (sources cfg) (0, 0) st with
    | (Ok (s, f), st') => (Ok 0, logged [LogSummary (s + f) s f] st')
    | (Raise e, st') => (Raise e, st')
    end.
Proof.
  intros Hfile Hload. apply loadHashDB_pair in Hload.
  destruct (isfile_run w (db cfg) st) as (b & Hb). rewrite Hb in Hfile.
  simpl in Hfile. injection Hfile as ->.
  unfold doCutVideoFiles, bind. rewrite Hb. simpl. rewrite Hload.
  by destruct (cutSources w cfg h (sources cfg) (0, 0) st) as [[[s f] | e] st'].
Qed.

Lemma doCutVideoFiles_summary w cfg st hashes :
  fst (isfile w (db cfg) st) = Ok true →
  fst (loadHashDB w cfg st) = Ok hashes →
  ∃ s f n evs,
    doCutVideoFiles w cfg st
    = (Ok 0, logged (evs ++ [LogSummary (s + f) s f]) (tick n st))
    ∧ 0 ≤ s ∧ 0 ≤ f
    ∧ s + f ≤ Z.of_nat (length (resolve w cfg st (sources cfg)))
    ∧ (sigint_at w = None →
       s + f = Z.of_nat (length (resolve w cfg st (sources cfg)))).
Proof.
  intros Hfile Hload.
  destruct (cutSources_run w cfg hashes (sources cfg) 0 0 st)
    as (s & f & n & evs & Hrun & ? & ? & ? & Heq).
  exists s, f, n, evs. split; [| repeat split; try lia; intros Hw; specialize (Heq Hw); lia].
  rewrite (doCutVideoFiles_loaded w cfg st hashes Hfile Hload), Hrun.
  by rewrite logged_logged.
Qed.

(** X8: a cut run over a readable database ends with code 0 and a summary
    whose total is the sum of the successes and the skips, at most the
    number of files its sources resolve to, and exactly that number when
    no interrupt arrives: every resolved file is counted once. *)
Theorem summary_counts_resolved (w : World) (cfg : Configs) (st : State)
    (hashes : gset Z) :
  fst (isfile w (db cfg) st) = Ok true →
  fst (loadHashDB w cfg st) = Ok hashes →
  ∃ s f n evs,
    doCutVideoFiles w cfg st
    = (Ok 0, logged (evs ++ [LogSummary (s + f) s f]) (tick n st))
    ∧ 0 ≤ s ∧ 0 ≤ f
    ∧ s + f ≤ Z.of_nat (length (resolve w cfg st (sources cfg)))
    ∧ (sigint_at w = None →
       s + f = Z.of_nat (length (resolve w cfg st (sources cfg)))).
Proof.
  intros Hfile Hload.
  destruct (doCutVideoFiles_summary w cfg st hashes Hfile Hload)
    as (s & f & n & evs & Hrun & Hs & Hf & Hle & Heq).
  exists s, f, n, evs. auto.
Qed.

Lemma summary_counts_resolved_witness :
  ∃ s f n evs,
    doCutVideoFiles header_world cut_cfg st_db
    = (Ok 0, logged (evs ++ [LogSummary (s + f) s f]) (tick n st_db))
    ∧ 0 ≤ s ∧ 0 ≤ f
    ∧ s + f ≤ Z.of_nat (length (resolve header_world cut_cfg st_db (sources cut_cfg)))
    ∧ (sigint_at header_world = None →
       s + f = Z.of_nat (length (resolve header_world cut_cfg st_db (sources cut_cfg)))).
Proof.
  apply (summary_counts_resolved header_world cut_cfg st_db {[known_hash]}).
  - reflexivity.
  - vm_compute. reflexivity.
Defined.

(** X9: cut mode never writes a text file (the log file apart), the
    database least of all.  It
    ends with code 1 exactly when the database is no file (nothing is
    processed then), with code 0 exactly when the database is a file that
    loads, and otherwise with the exception of the loader. *)
Theorem doCutVideoFiles_exit (w : World) (cfg : Configs) (st : State) :
  files (snd (doCutVideoFiles w cfg st)) = files st
  ∧ (fst (doCutVideoFiles w cfg st) = Ok 1 ↔ fst (isfile w (db cfg) st) = Ok false)
  ∧ (fst (isfile w (db cfg) st) = Ok false →
     doCutVideoFiles w cfg st = (Ok 1, logged [LogDbNotFound (db cfg)] st))
  ∧ (fst (doCutVideoFiles w cfg st) = Ok 0 ↔
     fst (isfile w (db cfg) st) = Ok true ∧ ∃ h, fst (loadHashDB w cfg st) = Ok h)
  ∧ (∀ e, fst (isfile w (db cfg) st) = Ok true →
     fst (loadHashDB w cfg st) = Raise e →
     doCutVideoFiles w cfg st = (Raise e, st)).
Proof.
  destruct (isfile_run w (db cfg) st) as ([|] & Hb).
  - pose proof (loadHashDB_state w cfg st) as Hst.
    destruct (loadHashDB w cfg st) as [[h | e] st1] eqn:Hload; simpl in Hst; subst st1.
    + destruct (doCutVideoFiles_summary w cfg st h) as (s & f & n & evs & -> & _);
        [by rewrite Hb | by rewrite Hload |].
      rewrite Hb. simpl. repeat split; try done; try discriminate; eauto.
    + assert (doCutVideoFiles w cfg st = (Raise e, st)) as ->.
      { unfold doCutVideoFiles, bind. rewrite Hb. simpl. by rewrite Hload. }
      rewrite Hb. simpl. repeat split; try done; try discriminate.
      * intros (_ & h & ?). discriminate.
      * by intros e' _ [= ->].
  - assert (doCutVideoFiles w cfg st = (Ok 1, logged [LogDbNotFound (db cfg)] st)) as ->.
    { unfold doCutVideoFiles, bind. by rewrite Hb. }
    rewrite Hb. simpl. repeat split; try done; try discriminate.
    intros [? _]. discriminate.
Qed.

(** X10: an interrupt that arrives before the first file is started lets
    the run end at once with code 0 and a summary of zero files. *)
Theorem interrupt_before_start (w : World) (cfg : Configs) (st : State)
    (hashes : gset Z) (k : nat) :
  sigint_at w = Some k → (k ≤ polls st)%nat →
  fst (isfile w (db cfg) st) = Ok true →
  fst (loadHashDB w cfg st) = Ok hashes →
  ∃ n, doCutVideoFiles w cfg st = (Ok 0, logged [LogSummary 0 0 0] (tick n st))
       ∧ (n ≤ 1)%nat.
Proof.
  intros Hw Hk Hfile Hload.
  rewrite (doCutVideoFiles_loaded w cfg st hashes Hfile Hload).
  destruct (sources cfg) as [|source more]; cbn [cutSources].
  - exists 0%nat. rewrite tick_0. split; [reflexivity | lia].
  - exists 1%nat. unfold bind. rewrite (isCancelled_set _ _ _ Hw Hk).
    split; [reflexivity | lia].
Qed.

Lemma interrupt_before_start_witness :
  ∃ n, doCutVideoFiles (world_of ∅ (Some 0%nat)) cut_cfg st_db
       = (Ok 0, logged [LogSummary 0 0 0] (tick n st_db))
       ∧ (n ≤ 1)%nat.
Proof.
  apply (interrupt_before_start (world_of ∅ (Some 0%nat)) cut_cfg st_db {[known_hash]} 0%nat).
  - reflexivity.
  - simpl. lia.
  - reflexivity.
  - vm_compute. reflexivity.
Defined.

(** ** What a scan can return *)

(** The meaning of each exit of the scan over the frames [fs], entered
    with the sampling time [t]. *)
Lemma scan_shape w cfg hashes eof fs : ∀ t st,
  ∃ stop ms n,
    scan w cfg hashes eof fs t st = (Ok (stop, ms), tick n st)
    ∧ match stop with
      | FrameNovel =>
          ∃ f, f ∈ fs ∧ ms = frame_ms f ∧ t ≤ ms ≤ max_header_length_ms cfg
               ∧ isSimilar cfg hashes (frame_hash f) = false
      | WindowExceeded =>
          ∃ f, f ∈ fs ∧ ms = frame_ms f ∧ max_header_length_ms cfg < ms
      | Cancelled => ms = -1 ∧ ∃ k, sigint_at w = Some k ∧ (k < polls (tick n st))%nat
      | StreamEnded => ms = eof
      | NotOpened => False
      end.
Proof.
  induction fs as [|f fs IH]; intros t st; rewrite scan_eq;
    unfold isCancelled; fold (tick 1 st);
    (destruct (sigint_at w) as [k|] eqn:Hw;
     [destruct (Nat.leb_spec k (polls st)) as [Hset | Hclear];
      [exists Cancelled, (-1), 1%nat; split; [done |]; split; [done |];
       exists k; split; [done | simpl; lia] |] |]).
  1,2: by exists StreamEnded, eof, 1%nat.
  all: destruct (Z.gtb_spec (frame_ms f) (max_header_length_ms cfg)) as [Hover | Hin];
    [exists WindowExceeded, (frame_ms f), 1%nat; split; [done |];
     exists f; split; [apply list_elem_of_here | split; [done | lia]] |].
  all: destruct (Z.geb_spec (frame_ms f) t) as [Hge | Hlt];
    [destruct (isSimilar cfg hashes (frame_hash f)) eqn:Hsim;
     [| exists FrameNovel, (frame_ms f), 1%nat; split; [done |];
        exists f; split; [apply list_elem_of_here | split; [done | split; [lia | done]]]] |].
  all: match goal with
       | |- context [scan _ _ _ _ _ ?t' ?s] =>
           destruct (IH t' s) as (stop & ms & n & -> & Hshape)
       end;
    exists stop, ms, (n + 1)%nat; rewrite <- tick_tick; (split; [done |]);
    destruct stop; try done.
  all: try (destruct Hshape as (g & Hg & ? & ? & ?); exists g;
            split; [by apply list_elem_of_further | split; [done | split; [lia | done]]]).
  all: try (destruct Hshape as (g & Hg & ? & ?); exists g;
            split; [by apply list_elem_of_further | split; [done | lia]]).
Qed.

(** X11: what [findCutPoint] returns is -1 after an interrupt, 0 for a
    video that does not open, the position after the last read when the
    stream is exhausted, the time of a frame beyond the header window, or
    (novel frame) the time of a frame that is at least 1000 ms, within the
    window, and not similar to the database. *)
Theorem findCutPoint_shape (w : World) (cfg : Configs) (hashes : gset Z)
    (src : string) (st : State) :
  let video := VideoCapture w src in
  ∃ stop ms n,
    findCutPoint_traced w cfg hashes src st = (Ok (stop, ms), tick n st)
    ∧ findCutPoint w cfg hashes src st = (Ok ms, tick n st)
    ∧ match stop with
      | FrameNovel =>
          ∃ f, f ∈ frames video ∧ ms = frame_ms f
               ∧ 1000 ≤ ms ≤ max_header_length_ms cfg
               ∧ isSimilar cfg hashes (frame_hash f) = false
      | WindowExceeded =>
          ∃ f, f ∈ frames video ∧ ms = frame_ms f ∧ max_header_length_ms cfg < ms
      | Cancelled => ms = -1 ∧ ∃ k, sigint_at w = Some k ∧ (k < polls (tick n st))%nat
      | StreamEnded => ms = eof_ms video
      | NotOpened => ms = 0 ∧ isOpened video = false ∧ n = 0%nat
      end.
Proof.
  intros video. unfold findCutPoint, bind, findCutPoint_traced. fold video.
  destruct (isOpened video) eqn:Hopen.
  - destruct (scan_shape w cfg hashes (eof_ms video) (frames video) 1000 st)
      as (stop & ms & n & -> & Hshape).
    exists stop, ms, n. split; [done |]. split; [done |]. by destruct stop.
  - exists NotOpened, 0, 0%nat. rewrite tick_0. by unfold ret.
Qed.

Lemma scan_all_known w cfg hashes eof fs : ∀ t st,
  sigint_at w = None →
  (∀ f, f ∈ fs → frame_ms f ≤ max_header_length_ms cfg
                 ∧ isSimilar cfg hashes (frame_hash f) = true) →
  scan w cfg hashes eof fs t st = (Ok (StreamEnded, eof), tick (S (length fs)) st).
Proof.
  intros t st Hw. revert t st.
  induction fs as [|f fs IH]; intros t st Hall; rewrite scan_eq, (isCancelled_calm _ _ Hw).
  - done.
  - destruct (Hall f (list_elem_of_here _ _)) as [Hin Hsim].
    destruct (Z.gtb_spec (frame_ms f) (max_header_length_ms cfg)); [lia |].
    rewrite Hsim.
    assert (∀ t', scan w cfg hashes eof fs t' (tick 1 st)
                  = (Ok (StreamEnded, eof), tick (S (length (f :: fs))) st)) as Hrest.
    { intros t'. rewrite IH by (intros g Hg; apply Hall; by apply list_elem_of_further).
      rewrite tick_tick. do 2 f_equal. simpl. lia. }
    destruct (_ >=? _); apply Hrest.
Qed.

(** X12: a stream whose frames are all known and within the header window
    is read to its end: the scan returns the position reported after the
    last read, so a file that is header throughout is cut at its end when
    that position is above 3000 ms. *)
Theorem known_stream_ends (w : World) (cfg : Configs) (hashes : gset Z)
    (src : string) (v : Video) (st : State) :
  sigint_at w = None →
  media w !! src = Some v →
  isOpened v = true →
  (∀ f, f ∈ frames v → frame_ms f ≤ max_header_length_ms cfg
                       ∧ isSimilar cfg hashes (frame_hash f) = true) →
  findCutPoint_traced w cfg hashes src st
  = (Ok (StreamEnded, eof_ms v), tick (S (length (frames v))) st).
Proof.
  intros Hw Hv Hopen Hall. unfold findCutPoint_traced, VideoCapture.
  rewrite Hv, Hopen. by apply scan_all_known.
Qed.

Lemma known_stream_ends_witness :
  findCutPoint_traced header_world cut_cfg {[known_hash; novel_hash]} "in/a.mp4" st0
  = (Ok (StreamEnded, 5500), tick 13 st0).
Proof.
  apply (known_stream_ends header_world cut_cfg {[known_hash; novel_hash]} "in/a.mp4"
           (mkVideo true header_stream 5500) st0).
  - reflexivity.
  - reflexivity.
  - reflexivity.
  - intros f Hf. simpl in Hf. unfold header_stream in Hf.
    repeat (apply elem_of_cons in Hf as [-> | Hf];
            [split; [vm_compute; discriminate | vm_compute; reflexivity] |]).
    by apply elem_of_nil in Hf.
Defined.

(** ** Building the database, further *)


Lemma addFrames_unbounded max fs : ∀ db,
  max ≤ 0 → addFrames max fs db = list_to_set (map frame_hash fs) ∪ db.
Proof.
  induction fs as [|f fs IH]; intros db Hmax; simpl; [set_solver |].
  destruct (Z.gtb_spec max 0); [lia |]. simpl. rewrite IH by done. set_solver.
Qed.

Lemma addFrames_within max fs : ∀ db f,
  increasing fs → f ∈ fs → frame_ms f ≤ max → frame_hash f ∈ addFrames max fs db.
Proof.
  induction fs as [|g fs IH]; intros db f Hinc Hf Hms; [by apply elem_of_nil in Hf |].
  simpl. pose proof (increasing_head_le _ _ _ Hinc Hf) as Hle.
  destruct (Z.gtb_spec (frame_ms g) max); [lia |]. rewrite andb_false_r.
  apply elem_of_cons in Hf as [-> | Hf].
  - apply addFrames_grows. set_solver.
  - apply IH; [by apply StronglySorted_inv in Hinc as [? _] | done..].
Qed.

(** X13: on a stream in increasing order of time, bounded sampling takes
    exactly the frames up to the bound: a fingerprint is in the set
    afterwards iff it was there before or belongs to a frame at no more
    than the bound. *)
Theorem bounded_sampling_exact (w : World) (cfg : Configs) (db : gset Z)
    (src : string) (v : Video) (max : Z) (st : State) (h : Z) :
  0 < max →
  media w !! src = Some v →
  isOpened v = true →
  increasing (frames v) →
  ∃ db', appendSampleVideoToHashDB w cfg db src max st = (Ok db', st)
         ∧ (h ∈ db' ↔
            h ∈ db ∨ ∃ f, f ∈ frames v ∧ frame_ms f ≤ max ∧ frame_hash f = h).
Proof.
  intros Hmax Hv Hopen Hinc.
  unfold appendSampleVideoToHashDB, bind.
  destruct (isfile_run w src st) as (b & Hb). rewrite Hb.
  pose proof (isfile_media w src v st Hv) as Hfile. rewrite Hb in Hfile.
  simpl in Hfile. injection Hfile as ->. simpl.
  unfold VideoCapture. rewrite Hv, Hopen. eexists. split; [reflexivity |].
  split; [by apply addFrames_elem |].
  intros [Hin | (f & Hf & Hms & <-)].
  - by apply addFrames_grows.
  - by apply addFrames_within.
Qed.

Lemma bounded_sampling_exact_witness :
  ∃ db', appendSampleVideoToHashDB sample_world append_cfg ∅ "in/a.mp4" 5000 st0
         = (Ok db', st0)
         ∧ (105 ∈ db' ↔
            105 ∈ (∅ : gset Z)
            ∨ ∃ f, f ∈ frames (mkVideo true twenty_seconds 20000)
                   ∧ frame_ms f ≤ 5000 ∧ frame_hash f = 105).
Proof.
  apply (bounded_sampling_exact sample_world append_cfg ∅ "in/a.mp4"
           (mkVideo true twenty_seconds 20000) 5000 st0 105).
  - lia.
  - reflexivity.
  - reflexivity.
  - unfold increasing. simpl. repeat constructor.
Defined.

(** X14: without a bound (build mode) a stream whose frames all have one
    fingerprint adds that one fingerprint, however many frames there
    are. *)
Theorem build_identical_frames (w : World) (cfg : Configs) (db : gset Z)
    (src : string) (v : Video) (max : Z) (st : State) (h : Z) :
  max ≤ 0 →
  media w !! src = Some v →
  isOpened v = true →
  frames v ≠ [] →
  (∀ f, f ∈ frames v → frame_hash f = h) →
  appendSampleVideoToHashDB w cfg db src max st = (Ok ({[h]} ∪ db), st).
Proof.
  intros Hmax Hv Hopen Hne Hall.
  unfold appendSampleVideoToHashDB, bind.
  destruct (isfile_run w src st) as (b & Hb). rewrite Hb.
  pose proof (isfile_media w src v st Hv) as Hfile. rewrite Hb in Hfile.
  simpl in Hfile. injection Hfile as ->. simpl.
  unfold VideoCapture. rewrite Hv, Hopen. unfold ret. do 2 f_equal.
  rewrite addFrames_unbounded by done. f_equal.
  apply set_eq. intros z. rewrite elem_of_list_to_set, elem_of_singleton.
  rewrite list_elem_of_In, in_map_iff. split.
  - intros (f & <- & Hf). apply Hall. by apply list_elem_of_In.
  - intros ->. destruct (frames v) as [|f fs]; [done |].
    exists f. split; [apply Hall; apply list_elem_of_here | by left].
Qed.

Lemma build_identical_frames_witness :
  appendSampleVideoToHashDB
    (world_of {["in/a.mp4" := mkVideo true [mkFrame 0 7; mkFrame 40 7; mkFrame 80 7] 80]} None)
    Configs_init ∅ "in/a.mp4" (-1) st0
  = (Ok ({[7]} ∪ ∅), st0).
Proof.
  apply (build_identical_frames
           (world_of {["in/a.mp4" := mkVideo true [mkFrame 0 7; mkFrame 40 7; mkFrame 80 7] 80]} None)
           Configs_init ∅ "in/a.mp4"
           (mkVideo true [mkFrame 0 7; mkFrame 40 7; mkFrame 80 7] 80) (-1) st0 7).
  - lia.
  - reflexivity.
  - reflexivity.
  - discriminate.
  - intros f Hf. simpl in Hf.
    repeat (apply elem_of_cons in Hf as [-> | Hf]; [reflexivity |]).
    by apply elem_of_nil in Hf.
Defined.












(** ** Appending one fingerprint *)

Lemma string_ind2 (P : string → Prop) :
  P "" →
  (∀ a, P (String a "")) →
  (∀ a b t, P t → P (String b t) → P (String a (String b t))) →
  ∀ t, P t.
Proof.
  intros H0 H1 H2 t.
  assert (P t ∧ ∀ a, P (String a t)) as [? _]; [| done].
  induction t as [|b t [IHt IHbt]]; [by split |].
  split; [apply IHbt |]. intros a. apply H2; [done | apply IHbt].
Qed.

Lemma universal_newlines_cons a s :
  Py.universal_newlines (String a s)
  = if Ascii.eqb a "013" then
      String "010"
        match s with
        | String b s'' =>
            if Ascii.eqb b "010" then Py.universal_newlines s''
            else Py.universal_newlines s
        | EmptyString => EmptyString
        end
    else String a (Py.universal_newlines s).
Proof. reflexivity. Qed.

Lemma universal_newlines_app t : ∀ s,
  Py.universal_newlines (t ++ String "010" s)
  = (Py.universal_newlines (t ++ String "010" "") ++ Py.universal_newlines s)%string.
Proof.
  induction t as [| a | a b t IHt IHbt] using string_ind2; intros s.
  - reflexivity.
  - change (Py.universal_newlines (String a (String "010" s))
            = (Py.universal_newlines (String a (String "010" ""))
               ++ Py.universal_newlines s)%string).
    rewrite !(universal_newlines_cons a). by destruct (Ascii.eqb a "013").
  - change (Py.universal_newlines (String a (String b (t ++ String "010" s)))
            = (Py.universal_newlines (String a (String b (t ++ String "010" "")))
               ++ Py.universal_newlines s)%string).
    rewrite !(universal_newlines_cons a).
    destruct (Ascii.eqb a "013").
    + destruct (Ascii.eqb b "010").
      * rewrite IHt. reflexivity.
      * change (String b (t ++ String "010" s)) with (String b t ++ String "010" s)%string.
        rewrite IHbt. reflexivity.
    + change (String b (t ++ String "010" s)) with (String b t ++ String "010" s)%string.
      rewrite IHbt. reflexivity.
Qed.

Lemma universal_newlines_ends t :
  ∃ y, Py.universal_newlines (t ++ String "010" "") = (y ++ String "010" "")%string.
Proof.
  induction t as [| a | a b t [y IHt] [y' IHbt]] using string_ind2.
  - by exists "".
  - change (∃ y, Py.universal_newlines (String a (String "010" ""))
                 = (y ++ String "010" "")%string).
    rewrite universal_newlines_cons. destruct (Ascii.eqb a "013").
    + by exists "".
    + by exists (String a "").
  - change (∃ y0, Py.universal_newlines (String a (String b (t ++ String "010" "")))
                  = (y0 ++ String "010" "")%string).
    rewrite (universal_newlines_cons a). destruct (Ascii.eqb a "013").
    + destruct (Ascii.eqb b "010").
      * rewrite IHt. by exists (String "010" y).
      * change (String b (t ++ String "010" "")) with (String b t ++ String "010" "")%string.
        rewrite IHbt. by exists (String "010" y').
    + change (String b (t ++ String "010" "")) with (String b t ++ String "010" "")%string.
      rewrite IHbt. by exists (String a y').
Qed.

Lemma readlines_nonempty y : Py.readlines (y ++ String "010" "") ≠ [].
Proof.
  destruct y as [|a y]; [done |].
  change (Py.readlines (String a (y ++ String "010" "")) ≠ []).
  cbn [Py.readlines]. destruct (Ascii.eqb a "010"); [done |].
  by destruct (Py.readlines (y ++ String "010" "")).
Qed.

Lemma readlines_app y : ∀ s,
  Py.readlines (y ++ String "010" s)
  = (Py.readlines (y ++ String "010" "") ++ Py.readlines s)%list.
Proof.
  induction y as [|a y IH]; intros s; [reflexivity |].
  change (Py.readlines (String a (y ++ String "010" s))
          = (Py.readlines (String a (y ++ String "010" "")) ++ Py.readlines s)%list).
  cbn [Py.readlines]. rewrite IH. destruct (Ascii.eqb a "010"); [done |].
  pose proof (readlines_nonempty y) as Hne.
  by destruct (Py.readlines (y ++ String "010" "")).
Qed.

Lemma addLines_app l1 : ∀ l2 (r : gset Z),
  addLines (l1 ++ l2) r
  = match addLines l1 r with
    | Ok r' => addLines l2 r'
    | Raise e => Raise e
    end.
Proof.
  induction l1 as [|l l1 IH]; intros l2 r; simpl; [done |].
  destruct (Py.int l); [apply IH | done].
Qed.

Lemma append_line_lines text h :
  text = "" ∨ (∃ t, text = (t ++ String "010" "")%string) →
  Py.readlines (Py.universal_newlines (text ++ Py.str h ++ String "010" ""))
  = (Py.readlines (Py.universal_newlines text) ++ [(Py.str h ++ String "010" "")%string])%list.
Proof.
  assert (Py.readlines (Py.universal_newlines (Py.str h ++ String "010" ""))
          = [(Py.str h ++ String "010" "")%string]) as Hline.
  { change (Py.str h ++ String "010" "")%string with (db_text [h]).
    by rewrite universal_newlines_db_text, readlines_db_text. }
  intros [-> | [t ->]]; [exact Hline |].
  rewrite append_assoc.
  change (String "010" "" ++ Py.str h ++ String "010" "")%string
    with (String "010" (Py.str h ++ String "010" ""))%string.
  rewrite universal_newlines_app.
  destruct (universal_newlines_ends t) as (y & ->).
  rewrite append_assoc.
  change (String "010" "" ++ Py.universal_newlines (Py.str h ++ String "010" ""))%string
    with (String "010" (Py.universal_newlines (Py.str h ++ String "010" "")))%string.
  by rewrite readlines_app, Hline.
Qed.

(** X17: appending a fingerprint to a database file that is empty or ends
    with a newline adds it to the set the file loads as. *)
Theorem appendHashDB_inserts (w : World) (cfg : Configs) (st : State)
    (text : string) (h : Z) (d : gset Z) :
  files st !! db cfg = Some text →
  text = "" ∨ (∃ t, text = (t ++ String "010" "")%string) →
  fst (loadHashDB w cfg st) = Ok d →
  fst (loadHashDB w cfg (snd (appendHashDB cfg h st))) = Ok ({[h]} ∪ d).
Proof.
  intros Hfile Hnl Hload.
  assert (addLines (Py.readlines (Py.universal_newlines text)) ∅ = Ok d) as Hd.
  { revert Hload. unfold loadHashDB, bind, isfile. rewrite Hfile. simpl.
    by rewrite Hfile. }
  unfold appendHashDB. simpl. rewrite Hfile. simpl.
  unfold loadHashDB, bind, isfile. simpl. rewrite lookup_insert_eq. simpl.
  rewrite lookup_insert_eq.
  rewrite (append_line_lines text h Hnl), addLines_app, Hd. simpl.
  pose proof (int_str_line h) as Hint. simpl in Hint. by rewrite Hint.
Qed.

Lemma appendHashDB_inserts_witness :
  fst (loadHashDB no_world cut_cfg (snd (appendHashDB cut_cfg 42 st_db)))
  = Ok ({[42]} ∪ {[known_hash]}).
Proof.
  apply (appendHashDB_inserts no_world cut_cfg st_db "17361641481138401520
" 42 {[known_hash]}).
  - reflexivity.
  - right. by exists "17361641481138401520".
  - vm_compute. reflexivity.
Defined.

(** Without the final newline the appended digits join the last line. *)
Example appendHashDB_joins_last_line :
  fst (loadHashDB no_world cut_cfg
         (snd (appendHashDB cut_cfg 5 (mkState 0 {["clips.db" := "12"]} []))))
  = Ok {[125]}.
Proof. vm_compute. reflexivity. Qed.

(** ** The command line *)

Lemma in_values_cons key value opts :
  in_values ((key, value) :: opts)
  = ((if key_in key "-i" "--in" then [value] else []) ++ in_values opts)%list.
Proof.
  unfold in_values. rewrite filter_cons. simpl.
  destruct (key_in key "-i" "--in"); by case_decide.
Qed.

Ltac split_key key :=
  unfold parseOpt, key_in;
  repeat match goal with
         | |- context [String.eqb key ?s] =>
             destruct (String.eqb_spec key s) as [-> | ?]; simpl
         end.

Lemma parseOpt_sources w c key value c' :
  parseOpt w c (key, value) = Ok (Some c') →
  sources c' = (sources c ++ (if key_in key "-i" "--in" then [value] else []))%list
  ∧ (key_in key "-i" "--in" = true → path_exists w value = true)
  ∧ max_header_length_ms c' = max_header_length_ms c.
Proof.
  split_key key;
    repeat match goal with
           | |- context [if negb ?b then _ else _] => destruct b eqn:?; simpl
           | |- context [match Py.int ?v with _ => _ end] => destruct (Py.int v); simpl
           end;
    try discriminate; intros [= <-]; simpl; rewrite ?app_nil_r; repeat split; done.
Qed.

Lemma parseOpts_sources w opts : ∀ c c',
  parseOpts w c opts = Ok (Some c') →
  sources c' = (sources c ++ in_values opts)%list
  ∧ Forall (λ v, path_exists w v = true) (in_values opts)
  ∧ max_header_length_ms c' = max_header_length_ms c.
Proof.
  induction opts as [|[key value] rest IH]; intros c c'; cbn [parseOpts].
  - intros [= <-]. rewrite app_nil_r. by repeat split.
  - destruct (parseOpt w c (key, value)) as [[c1|]|e] eqn:Hopt; try discriminate.
    intros Hrest. destruct (IH _ _ Hrest) as (Hs & Hall & Hwin).
    destruct (parseOpt_sources _ _ _ _ _ Hopt) as (Hs1 & Hex & Hwin1).
    rewrite in_values_cons, Hs, Hs1, Hwin, Hwin1, <- app_assoc.
    split; [done |]. split; [| done].
    destruct (key_in key "-i" "--in"); [| done].
    apply Forall_cons. auto.
Qed.

(** X18: the sources of a parsed command line are the values of its [-i]
    and [--in] options, in order, every one an existing path; the default
    source ["in"] stays in front of them unless [-i] or [--in] is an
    argument by itself.  The header window is always five minutes. *)
Theorem parsed_sources (w : World) (args : list string)
    (opts : list (string * string)) (cfg : Configs) :
  parseCmdOptions w args opts = Ok (Some cfg) →
  sources cfg
  = ((if bool_decide ("-i" ∈ args) || bool_decide ("--in" ∈ args) then [] else ["in"])
     ++ in_values opts)%list
  ∧ Forall (λ v, path_exists w v = true) (in_values opts)
  ∧ max_header_length_ms cfg = 300000.
Proof.
  unfold parseCmdOptions. destruct (_ || _ || _); [discriminate |].
  intros Hopts. apply parseOpts_sources in Hopts as (-> & Hall & ->).
  split; [| split; [done |]]; by destruct (_ || _).
Qed.

Lemma parsed_sources_witness :
  sources (set_sources ["in"; "x"] (set_op CutVideoFile Configs_init))
  = ((if bool_decide ("-i" ∈ ["-c"; "--in=x"]) || bool_decide ("--in" ∈ ["-c"; "--in=x"])
      then [] else ["in"])
     ++ in_values [("-c", ""); ("--in", "x")])%list
  ∧ Forall (λ v, path_exists no_world v = true) (in_values [("-c", ""); ("--in", "x")])
  ∧ max_header_length_ms (set_sources ["in"; "x"] (set_op CutVideoFile Configs_init))
    = 300000.
Proof.
  apply (parsed_sources no_world ["-c"; "--in=x"] [("-c", ""); ("--in", "x")]).
  vm_compute. reflexivity.
Defined.

Lemma separator_lower a : Py.is_ext_sep a = true → Py.lower_char a = a.
Proof.
  destruct a as [[] [] [] [] [] [] [] []]; vm_compute; intros; try discriminate; auto.
Qed.

Lemma re_split_separators value :
  string_forall Py.is_ext_sep value = true →
  filter (λ x, nonempty x = true) (Py.re_split (Py.lower value)) = [].
Proof.
  induction value as [|a value IH]; simpl; [done |].
  intros [Ha Hv]%andb_true_iff. rewrite (separator_lower a Ha), Ha.
  rewrite filter_cons. simpl.
  first [case_decide; [done | by apply IH] | by apply IH].
Qed.

Lemma walkFiles_none cfg tree :
  (∀ path, hasValidExtension cfg path = false) → walkFiles cfg tree = [].
Proof.
  intros Hnone. unfold walkFiles.
  induction tree as [|[[cur dirs] fs] tree IH]; simpl; [done |].
  rewrite IH, app_nil_r. clear IH.
  induction fs as [|file fs IH]; simpl; [done |]. by rewrite Hnone.
Qed.

(** X19: an [-e] value without any extension in it (empty, or separators
    only) configures an empty allow-list: no path passes the filter, and
    every source resolves to no file at all. *)
Theorem empty_extension_list (w : World) (cfg : Configs) (value source : string)
    (st : State) :
  string_forall Py.is_ext_sep value = true →
  (∀ path, hasValidExtension (set_exts (Some (parseExts value)) cfg) path = false)
  ∧ getAllVideoFiles w (set_exts (Some (parseExts value)) cfg) source st = (Ok [], st).
Proof.
  intros Hsep.
  assert (∀ path, hasValidExtension (set_exts (Some (parseExts value)) cfg) path = false)
    as Hnone.
  { intros path. unfold hasValidExtension, parseExts. simpl.
    by rewrite re_split_separators. }
  split; [done |].
  unfold getAllVideoFiles, bind, isfile, ret. simpl.
  destruct (_ || _); simpl; [by rewrite Hnone |].
  by rewrite walkFiles_none.
Qed.

Lemma empty_extension_list_witness :
  (∀ path, hasValidExtension (set_exts (Some (parseExts " , ")) cut_cfg) path = false)
  ∧ getAllVideoFiles header_world (set_exts (Some (parseExts " , ")) cut_cfg) "in" st0
    = (Ok [], st0).
Proof.
  apply (empty_extension_list header_world cut_cfg " , " "in" st0). reflexivity.
Defined.





